(** * vault-gpg-plugin: the Encrypt handler ([gpg/path_encrypt.go])

    A shallow embedding of [pathEncrypt] (the path declaration with its field
    schema) and of [pathEncryptWrite] (the handler), and the properties of the
    handler that the design document states.

    The handler is sequential Go code with early returns that calls into
    four collaborators: the host framework ([framework.FieldData],
    [logical.Storage]), the Go standard library ([encoding/base64],
    [bytes.Buffer]), [golang.org/x/crypto/openpgp] and the backend's own
    [key]/[entity] helpers.  The handler is embedded as a computation in a
    state-and-early-return monad over a [World] that holds the storage, the
    ciphertext buffer with the two writers stacked on it, and the
    chronological trace of the calls made.  What the collaborators answer is
    taken from an interface, [Env]; nothing about their answers is assumed
    unless a theorem states it as a hypothesis.

    The file has three parts: the model of the handler; an executable
    environment (base64, armor, a stand-in message format) to run it on
    concrete requests; and the proofs, first for every environment, then the
    concrete runs. *)

From Stdlib Require Import String Ascii List Bool NArith ZArith Lia DecimalString.
From Stdlib Require Import Strings.Byte.
From stdpp Require Import base option list gmap strings.

Local Open Scope stdpp_scope.

(** * The handler

    ** Go values *)

(** [[]byte]. *)
Definition bytes : Type := list byte.

(** A Go [error] value.  [logical.ErrInvalidRequest] is a sentinel compared by
    identity; every other error is known to the handler through its
    [Error()] text only. *)
Inductive error : Type :=
| ErrInvalidRequest
| Err (text : string).

Definition Error (e : error) : string :=
  match e with
  | ErrInvalidRequest => "invalid request"
  | Err text => text
  end.

(** [*logical.Response] as the handler builds it: [logical.ErrorResponse(text)]
    or a response whose [Data] is [{"ciphertext": c}]. *)
Inductive Response : Type :=
| ErrorResponse (text : string)
| CiphertextResponse (ciphertext : string).

(** What a call of the handler ends in: the pair of a [*logical.Response] and an
    [error] it returns ([None] is Go's [nil]), or a run-time panic. *)
Inductive Outcome : Type :=
| Returned (resp : option Response) (err : option error)
| Panicked (reason : string).

#[global] Instance error_eq_dec : EqDecision error.
Proof. solve_decision. Defined.
#[global] Instance Response_eq_dec : EqDecision Response.
Proof. solve_decision. Defined.
#[global] Instance Outcome_eq_dec : EqDecision Outcome.
Proof. solve_decision. Defined.

(** ** The framework's field data *)

(** [framework.FieldSchema]; every field of this path is a [TypeString], so
    only the default is kept. *)
Record FieldSchema : Type := { Default : option string }.

(** [framework.FieldData]: the raw request fields and the path's schema. *)
Record FieldData : Type := {
  Raw : gmap string string;
  Schema : gmap string FieldSchema;
}.

(** [schema.DefaultOrZero()]: the declared default, else the zero string. *)
Definition DefaultOrZero (s : FieldSchema) : string :=
  match Default s with
  | Some d => d
  | None => ""
  end.

(** [data.Get(k).(string)]: panics on a field that the schema does not
    declare, yields the raw value when the request carries one and the
    schema's default (or zero value) otherwise. *)
Definition FieldData_Get (d : FieldData) (k : string) : option string :=
  match Schema d !! k with
  | None => None
  | Some schema =>
      match Raw d !! k with
      | Some v => Some v
      | None => Some (DefaultOrZero schema)
      end
  end.

(** The [Fields] of [pathEncrypt] (lines 22-56). *)
Definition pathEncrypt_Fields : gmap string FieldSchema :=
  <["name" := {| Default := None |}]>
  (<["plaintext" := {| Default := None |}]>
  (<["urlalgorithm" := {| Default := None |}]>
  (<["algorithm" := {| Default := Some "sha2-256" |}]>
  (<["format" := {| Default := Some "base64" |}]>
  (<["recipient_key" := {| Default := None |}]> ∅))))).

(** The field data the framework hands to the callback of this path. *)
Definition fieldData (raw : gmap string string) : FieldData :=
  {| Raw := raw; Schema := pathEncrypt_Fields |}.

(** ** OpenPGP and storage data *)

(** [crypto.Hash]; [HashUnset] is the zero value of a fresh [packet.Config]. *)
Inductive Hash : Type := HashUnset | SHA224 | SHA256 | SHA384 | SHA512.

(** [packet.Config], of which the handler sets [DefaultHash] only. *)
Record Config : Type := { DefaultHash : Hash }.

(** [*openpgp.Entity].  The handler never looks inside an entity; it is
    identified here by the id of its primary key. *)
Record Entity : Type := { KeyId : N }.

(** Modelled from the spec: the stored key record (section 3, KeyRecord);
    its declaration is in the backend, outside this file. *)
Record KeyRecord : Type := {
  serializedKey : bytes;
  realName : string;
  email : string;
  keyBits : N;
}.

#[global] Instance Hash_eq_dec : EqDecision Hash.
Proof. solve_decision. Defined.
#[global] Instance Config_eq_dec : EqDecision Config.
Proof. solve_decision. Defined.
#[global] Instance Entity_eq_dec : EqDecision Entity.
Proof. solve_decision. Defined.
#[global] Instance byte_eq_dec : EqDecision byte := Byte.byte_eq_dec.
#[global] Instance KeyRecord_eq_dec : EqDecision KeyRecord.
Proof. solve_decision. Defined.

(** The [io.WriteCloser] stored in [ciphertextEncoder]: the armor encoder
    with its block type, or the base64 stream encoder. *)
Inductive Encoder : Type :=
| ArmorEncoder (blockType : string)
| Base64Encoder.

(** The [io.WriteCloser] returned by [openpgp.Encrypt]: it remembers the
    writer it emits to ([None] is the nil interface value) and the arguments
    of the call. *)
Record Writer : Type := {
  ciphertextWriter : option Encoder;
  to : list Entity;
  signed : Entity;
  config : Config;
}.

#[global] Instance Encoder_eq_dec : EqDecision Encoder.
Proof. solve_decision. Defined.

(** ** Calls observed *)

(** One entry per call that leaves the handler, in the order made. *)
Inductive Event : Type :=
| EvDecodeString (s : string)
| EvReadArmoredKeyRing (s : string)
| EvStorageGet (name : string)
| EvStoragePut (name : string)
| EvStorageDelete (name : string)
| EvEntity (entry : KeyRecord)
| EvArmorEncode (blockType : string)
| EvNewEncoder
| EvEncrypt (to : list Entity) (signed : Entity) (config : Config)
| EvWrite (p : bytes) (err : option error)
| EvClose (err : option error)
| EvEncoderClose (err : option error)
| EvBufferString.

#[global] Instance Event_eq_dec : EqDecision Event.
Proof. solve_decision. Defined.

(** Calls that reach the storage. *)
Definition is_storage (ev : Event) : bool :=
  match ev with
  | EvStorageGet _ | EvStoragePut _ | EvStorageDelete _ => true
  | _ => false
  end.

(** Calls that change the storage. *)
Definition is_storage_write (ev : Event) : bool :=
  match ev with
  | EvStoragePut _ | EvStorageDelete _ => true
  | _ => false
  end.

(** Cryptographic work: parsing the recipient's key, deriving the stored
    key's entity, and the encryption itself with its writer. *)
Definition is_crypto (ev : Event) : bool :=
  match ev with
  | EvReadArmoredKeyRing _ | EvEntity _ | EvEncrypt _ _ _
  | EvWrite _ _ | EvClose _ => true
  | _ => false
  end.

(** ** The world the handler runs in *)

Record World : Type := {
  storage : gmap string KeyRecord;  (* req.Storage: key records by name *)
  trace : list Event;               (* calls made so far, oldest first *)
  ciphertext : string;              (* contents of the bytes.Buffer *)
  encoded : bytes;                  (* bytes ciphertextEncoder received so far *)
  written : bytes;                  (* plaintext bytes w received so far *)
}.

Definition initial (st : gmap string KeyRecord) : World :=
  {| storage := st; trace := []; ciphertext := ""; encoded := []; written := [] |}.

(** ** The collaborators *)

(** The answers of the libraries and of the backend helpers.  A Go call that
    returns [(v, err)] is a function to a pair; [v] is whatever the callee
    leaves there when [err] is not [nil].  The writers are given by what they
    emit downstream: as a function of the bytes they received before and of
    the new chunk for a [Write], of all bytes received for a [Close]. *)
Class Env : Type := {
  (* base64.StdEncoding.DecodeString *)
  DecodeString : string -> bytes * option error;
  (* openpgp.ReadArmoredKeyRing over the text *)
  ReadArmoredKeyRing : string -> list Entity * option error;
  (* the I/O failure, if any, of a storage read of the named record *)
  storage_failure : string -> option error;
  (* b.entity *)
  entity : KeyRecord -> Entity * option error;
  (* armor.Encode(out, blockType, nil): the header it writes to out *)
  armor_Encode : string -> string * option error;
  (* ciphertextEncoder.Write and .Close: text appended to the buffer *)
  encoder_Write : Encoder -> bytes -> bytes -> string;
  encoder_Close : Encoder -> bytes -> string * option error;
  (* openpgp.Encrypt, w.Write, w.Close: bytes emitted to ciphertextWriter *)
  Encrypt : list Entity -> Entity -> Config -> bytes * option error;
  w_Write : list Entity -> Entity -> Config -> bytes -> bytes -> bytes * option error;
  w_Close : list Entity -> Entity -> Config -> bytes -> bytes * option error;
  (* armor.Decode followed by reading the block's body *)
  armor_Decode : string -> option (string * bytes);
  (* openpgp.ReadMessage with the private key of the entity, body read to the end *)
  ReadMessage : Entity -> bytes -> option bytes;
}.

(** ** Handler computations *)

(** A statement either falls through to the next one with a value, or ends
    the call (a [return] or a panic). *)
Inductive Step (A : Type) : Type :=
| Next (a : A)
| Stop (o : Outcome).
Arguments Next {A} a.
Arguments Stop {A} o.

Definition M (A : Type) : Type := World -> Step A * World.

Definition ret {A : Type} (a : A) : M A := fun w => (Next a, w).

Definition bind {A B : Type} (m : M A) (k : A -> M B) : M B :=
  fun w =>
    match m w with
    | (Next a, w') => k a w'
    | (Stop o, w') => (Stop o, w')
    end.

Declare Scope go_scope.
Delimit Scope go_scope with go.
Notation "x <- m ;; k" := (bind m (fun x => k))
  (at level 100, m at next level, right associativity) : go_scope.
Notation "m ;; k" := (bind m (fun _ => k))
  (at level 100, right associativity) : go_scope.

(** [return resp, err]. *)
Definition Return {A : Type} (resp : option Response) (err : option error) : M A :=
  fun w => (Stop (Returned resp err), w).

Definition panic {A : Type} (reason : string) : M A :=
  fun w => (Stop (Panicked reason), w).

(** [if err != nil { return ... }], the returned pair computed from [err]. *)
Definition if_err (err : option error) (r : error -> M unit) : M unit :=
  match err with
  | Some e => r e
  | None => ret tt
  end.

(** The outcome and the final world of a handler started in [w]. *)
Definition run (m : M Outcome) (w : World) : Outcome * World :=
  match m w with
  | (Next o, w') => (o, w')
  | (Stop o, w') => (o, w')
  end.

(** *** Changes of the world *)

Definition log (ev : Event) : M unit :=
  fun w =>
    (Next tt,
     {| storage := storage w; trace := trace w ++ [ev];
        ciphertext := ciphertext w; encoded := encoded w; written := written w |}).

(** [buffer.Write(s)]: appends to the ciphertext buffer. *)
Definition buffer_Write (s : string) : M unit :=
  fun w =>
    (Next tt,
     {| storage := storage w; trace := trace w;
        ciphertext := ciphertext w +:+ s; encoded := encoded w; written := written w |}).

Definition set_encoded (b : bytes) : M unit :=
  fun w =>
    (Next tt,
     {| storage := storage w; trace := trace w;
        ciphertext := ciphertext w; encoded := b; written := written w |}).

Definition set_written (b : bytes) : M unit :=
  fun w =>
    (Next tt,
     {| storage := storage w; trace := trace w;
        ciphertext := ciphertext w; encoded := encoded w; written := b |}).

Definition set_storage (st : gmap string KeyRecord) : M unit :=
  fun w =>
    (Next tt,
     {| storage := st; trace := trace w;
        ciphertext := ciphertext w; encoded := encoded w; written := written w |}).

Definition get_world : M World := fun w => (Next w, w).

(** [new(bytes.Buffer)] with nothing stacked on it yet. *)
Definition new_Buffer : M unit :=
  fun w =>
    (Next tt,
     {| storage := storage w; trace := trace w;
        ciphertext := ""; encoded := []; written := [] |}).

Local Open Scope go_scope.

(** *** The calls *)

(** [data.Get(k).(string)]. *)
Definition Get (data : FieldData) (k : string) : M string :=
  match FieldData_Get data k with
  | Some v => ret v
  | None => panic ("field " +:+ k +:+ " not in the schema")
  end.

(** [logical.Storage]: [Get], [Put] and [Delete] of a record by name.  Only
    a [Put] or a [Delete] changes the stored records. *)
Definition Storage_Get `{Env} (name : string) : M (option KeyRecord * option error) :=
  log (EvStorageGet name) ;;
  w <- get_world ;;
  match storage_failure name with
  | Some e => ret (None, Some e)
  | None => ret (storage w !! name, None)
  end.

Definition Storage_Put (name : string) (entry : KeyRecord) : M unit :=
  log (EvStoragePut name) ;;
  w <- get_world ;;
  set_storage (<[name := entry]> (storage w)).

Definition Storage_Delete (name : string) : M unit :=
  log (EvStorageDelete name) ;;
  w <- get_world ;;
  set_storage (delete name (storage w)).

(** Modelled from the spec: [b.key(ctx, req.Storage, name)], the KeyStore's
    [get] (section 4.1); the helper is in the backend, outside this file.
    It proxies to one storage read of the named record; an absent record is
    [(nil, nil)], an I/O failure is the error. *)
Definition key `{Env} (name : string) : M (option KeyRecord * option error) :=
  Storage_Get name.

(** [b.entity(entry)]. *)
Definition b_entity `{Env} (entry : KeyRecord) : M (Entity * option error) :=
  log (EvEntity entry) ;;
  ret (entity entry).

Definition base64_DecodeString `{Env} (s : string) : M (bytes * option error) :=
  log (EvDecodeString s) ;;
  ret (DecodeString s).

Definition openpgp_ReadArmoredKeyRing `{Env} (s : string) : M (list Entity * option error) :=
  log (EvReadArmoredKeyRing s) ;;
  ret (ReadArmoredKeyRing s).

(** [el[0]]: a run-time panic when the slice is empty. *)
Definition index0 (el : list Entity) : M Entity :=
  match el with
  | e :: _ => ret e
  | [] => panic "index out of range [0] with length 0"
  end.

(** [armor.Encode(ciphertext, blockType, nil)]: writes the header to the
    buffer and hands back the encoder. *)
Definition armor_Encode_to_buffer `{Env} (blockType : string) : M (Encoder * option error) :=
  log (EvArmorEncode blockType) ;;
  buffer_Write (armor_Encode blockType).1 ;;
  ret (ArmorEncoder blockType, (armor_Encode blockType).2).

(** [base64.NewEncoder(base64.StdEncoding, ciphertext)]: writes nothing. *)
Definition base64_NewEncoder : M Encoder :=
  log EvNewEncoder ;;
  ret Base64Encoder.

(** A method call on a nil [io.WriteCloser]. *)
Definition nil_dereference {A : Type} : M A :=
  panic "invalid memory address or nil pointer dereference".

(** A [Write] on [ciphertextEncoder], as the OpenPGP writer above it issues
    them: the encoder appends what it can already encode to the buffer. *)
Definition Encoder_Write `{Env} (enc : option Encoder) (p : bytes) : M unit :=
  match enc with
  | None => nil_dereference
  | Some enc =>
      w <- get_world ;;
      buffer_Write (encoder_Write enc (encoded w) p) ;;
      set_encoded (encoded w ++ p)
  end.

(** [ciphertextEncoder.Close()]: flushes the rest to the buffer. *)
Definition Encoder_Close `{Env} (enc : option Encoder) : M (option error) :=
  match enc with
  | None => nil_dereference
  | Some enc =>
      w <- get_world ;;
      buffer_Write (encoder_Close enc (encoded w)).1 ;;
      log (EvEncoderClose (encoder_Close enc (encoded w)).2) ;;
      ret (encoder_Close enc (encoded w)).2
  end.

(** [openpgp.Encrypt(ciphertextWriter, to, signed, nil, config)]. *)
Definition openpgp_Encrypt `{Env} (enc : option Encoder) (to : list Entity) (signed : Entity)
    (config : Config) : M (Writer * option error) :=
  log (EvEncrypt to signed config) ;;
  Encoder_Write enc (Encrypt to signed config).1 ;;
  ret ({| ciphertextWriter := enc; to := to; signed := signed; config := config |},
       (Encrypt to signed config).2).

(** [w.Write(p)]. *)
Definition Writer_Write `{Env} (w : Writer) (p : bytes) : M (option error) :=
  s <- get_world ;;
  let r := w_Write (to w) (signed w) (config w) (written s) p in
  Encoder_Write (ciphertextWriter w) r.1 ;;
  set_written (written s ++ p) ;;
  log (EvWrite p r.2) ;;
  ret r.2.

(** [w.Close()]. *)
Definition Writer_Close `{Env} (w : Writer) : M (option error) :=
  s <- get_world ;;
  let r := w_Close (to w) (signed w) (config w) (written s) in
  Encoder_Write (ciphertextWriter w) r.1 ;;
  log (EvClose r.2) ;;
  ret r.2.

(** [ciphertext.String()]. *)
Definition Buffer_String : M string :=
  log EvBufferString ;;
  w <- get_world ;;
  ret (ciphertext w).

(** ** [pathEncryptWrite] *)

(** The double quote character, for the message of line 98. *)
Definition dquote : string := String (ascii_of_nat 34) EmptyString.

(** The local variables that are live at line 110. *)
Record Locals : Type := {
  plaintext : bytes;
  l_config : Config;
  format : string;
  recipientKeyList : list Entity;
  err : option error;
}.

(** Lines 76-79: the URL parameter, and the body parameter when the URL one
    is empty. *)
Definition algorithm_of (data : FieldData) : M string :=
  algorithm <- Get data "urlalgorithm" ;;
  if String.eqb algorithm "" then Get data "algorithm" else ret algorithm.

(** Lines 80-88: the cases of the [switch] over the algorithm, [None] for
    its [default]. *)
Definition hash_of (algorithm : string) : option Hash :=
  if String.eqb algorithm "sha2-224" then Some SHA224
  else if String.eqb algorithm "sha2-256" then Some SHA256
  else if String.eqb algorithm "sha2-384" then Some SHA384
  else if String.eqb algorithm "sha2-512" then Some SHA512
  else None.

(** Lines 74 and 80-91: the fresh [packet.Config] and the [switch] that sets
    its [DefaultHash] or returns. *)
Definition set_DefaultHash (algorithm : string) : M Config :=
  match hash_of algorithm with
  | Some h => ret {| DefaultHash := h |}
  | None => Return (Some (ErrorResponse ("unsupported algorithm " +:+ algorithm))) None
  end.

(** Lines 95-96: the two [case]s of the [switch] over the format. *)
Definition known_format (format : string) : bool :=
  if String.eqb format "base64" then true
  else if String.eqb format "ascii-armor" then true
  else false.

(** Lines 94-99: the [switch] that admits the two formats or returns. *)
Definition check_format (format : string) : M unit :=
  if known_format format then ret tt
  else Return (Some (ErrorResponse
         ("unsupported encoding format " +:+ format +:+ "; must be " +:+ dquote
          +:+ "base64" +:+ dquote +:+ " or " +:+ dquote +:+ "ascii-armor" +:+ dquote)))
       None.

(** Lines 68-109: request validation, down to the construction of
    [recipientKeyList]. *)
Definition pathEncryptWrite_recipient `{Env} (data : FieldData) : M Locals :=
  plaintextB64 <- Get data "plaintext" ;;
  r <- base64_DecodeString plaintextB64 ;;
  let '(plaintext, err) := r in
  if_err err (fun err =>
    Return (Some (ErrorResponse ("unable to decode plaintext as base64: " +:+ Error err)))
           (Some ErrInvalidRequest)) ;;

  algorithm <- algorithm_of data ;;
  config <- set_DefaultHash algorithm ;;

  format <- Get data "format" ;;
  check_format format ;;

  recipientKey <- Get data "recipient_key" ;;
  (if String.eqb recipientKey ""
   then Return (Some (ErrorResponse "recipient_key not exist")) (Some ErrInvalidRequest)
   else ret tt) ;;
  r <- openpgp_ReadArmoredKeyRing recipientKey ;;
  let '(el, err) := r in
  if_err err (fun err =>
    Return (Some (ErrorResponse (Error err))) (Some ErrInvalidRequest)) ;;
  e0 <- index0 el ;;
  ret {| plaintext := plaintext; l_config := config; format := format;
         recipientKeyList := [e0]; err := err |}.

(** Lines 114-160: key lookup, the writer stack, encryption and the
    response. *)
Definition pathEncryptWrite_encrypt `{Env} (data : FieldData) (l : Locals) : M Outcome :=
  name <- Get data "name" ;;
  r <- key name ;;
  let '(entry, err) := r in
  if_err err (fun err => Return None (Some err)) ;;
  match entry with
  | None => Return (Some (ErrorResponse "key not found")) (Some ErrInvalidRequest)
  | Some entry =>
      r <- b_entity entry ;;
      let '(entity, err) := r in
      if_err err (fun err => Return None (Some err)) ;;

      new_Buffer ;;
      ciphertextEncoder <-
        (if String.eqb (format l) "ascii-armor" then
           r <- armor_Encode_to_buffer "PGP MESSAGE" ;;
           let '(encoder, err) := r in
           if_err err (fun err => Return None (Some err)) ;;
           ret (Some encoder)
         else if String.eqb (format l) "base64" then
           encoder <- base64_NewEncoder ;;
           ret (Some encoder)
         else ret None) ;;

      r <- openpgp_Encrypt ciphertextEncoder (recipientKeyList l) entity (l_config l) ;;
      let '(w, err) := r in
      if_err err (fun err => Return None (Some err)) ;;
      err <- Writer_Write w (plaintext l) ;;
      if_err err (fun err => Return None (Some err)) ;;
      err <- Writer_Close w ;;
      if_err err (fun err => Return None (Some err)) ;;
      err <- Encoder_Close ciphertextEncoder ;;
      if_err err (fun err => Return None (Some err)) ;;

      s <- Buffer_String ;;
      Return (Some (CiphertextResponse s)) None
  end.

(** The handler: lines 68-109, the check of lines 110-112 on the [err] left
    by line 105, lines 114-160. *)
Definition pathEncryptWrite `{Env} (data : FieldData) : M Outcome :=
  l <- pathEncryptWrite_recipient data ;;
  if_err (err l) (fun err => Return None (Some err)) ;;
  pathEncryptWrite_encrypt data l.

(** The handler with lines 110-112 deleted, to compare with. *)
Definition pathEncryptWrite_without_recheck `{Env} (data : FieldData) : M Outcome :=
  l <- pathEncryptWrite_recipient data ;;
  pathEncryptWrite_encrypt data l.

(** A call of the path: the framework passes the raw fields under the
    path's schema, the request carries the storage. *)
Definition call `{Env} (raw : gmap string string) (st : gmap string KeyRecord)
    : Outcome * World :=
  run (pathEncryptWrite (fieldData raw)) (initial st).

(** ** The request as the handler reads it *)

(** The value [data.Get(k)] yields under the path's schema. *)
Definition field (raw : gmap string string) (k : string) : string :=
  default "" (FieldData_Get (fieldData raw) k).

(** The algorithm that lines 76-79 select. *)
Definition effective_algorithm (raw : gmap string string) : string :=
  if String.eqb (field raw "urlalgorithm") "" then field raw "algorithm"
  else field raw "urlalgorithm".

Definition supported_algorithms : list string :=
  ["sha2-224"; "sha2-256"; "sha2-384"; "sha2-512"].

Definition supported_formats : list string := ["base64"; "ascii-armor"].

(** ** Streams *)

(** What an encoder appends to the buffer when the chunks are written to it
    in order and it is closed, [prior] being what it received before. *)
Fixpoint encoder_stream `{Env} (enc : Encoder) (prior : bytes) (chunks : list bytes) : string :=
  match chunks with
  | [] => (encoder_Close enc prior).1
  | c :: chunks => encoder_Write enc prior c +:+ encoder_stream enc (prior ++ c) chunks
  end.

(** What creating the encoder puts in the buffer. *)
Definition encoder_header `{Env} (enc : Encoder) : string :=
  match enc with
  | ArmorEncoder blockType => (armor_Encode blockType).1
  | Base64Encoder => ""
  end.

(** The buffer once the encoder, created on the empty buffer, received the
    chunks and was closed. *)
Definition encoder_output `{Env} (enc : Encoder) (chunks : list bytes) : string :=
  encoder_header enc +:+ encoder_stream enc [] chunks.

(** The OpenPGP message that [Encrypt], one [Write] of [p] and [Close] emit. *)
Definition message `{Env} (to : list Entity) (signed : Entity) (config : Config)
    (p : bytes) : list bytes :=
  [(Encrypt to signed config).1; (w_Write to signed config [] p).1;
   (w_Close to signed config p).1].

(** ** What is asked of the libraries *)

(** Armor framing: an encoder created for a block type starts the buffer
    with the begin line of that type, and its [Close] ends it with the end
    line. *)
Definition armor_frames `{Env} : Prop :=
  forall blockType : string,
    ((armor_Encode blockType).2 = None ->
     exists rest, (armor_Encode blockType).1 = "-----BEGIN " +:+ blockType +:+ "-----" +:+ rest) /\
    (forall input : bytes,
       (encoder_Close (ArmorEncoder blockType) input).2 = None ->
       exists text, (encoder_Close (ArmorEncoder blockType) input).1
                    = text +:+ "-----END " +:+ blockType +:+ "-----").

(** Decoding undoes encoding, for the two encoders the handler creates. *)
Definition base64_round_trip `{Env} : Prop :=
  forall chunks : list bytes,
    (encoder_Close Base64Encoder (concat chunks)).2 = None ->
    DecodeString (encoder_output Base64Encoder chunks) = (concat chunks, None).

Definition armor_round_trip `{Env} : Prop :=
  forall chunks : list bytes,
    (armor_Encode "PGP MESSAGE").2 = None ->
    (encoder_Close (ArmorEncoder "PGP MESSAGE") (concat chunks)).2 = None ->
    armor_Decode (encoder_output (ArmorEncoder "PGP MESSAGE") chunks)
    = Some ("PGP MESSAGE", concat chunks).

(** Every recipient of a message reads back the data written. *)
Definition message_round_trip `{Env} : Prop :=
  forall (to : list Entity) (signed : Entity) (config : Config) (p : bytes) (R : Entity),
    R ∈ to ->
    (Encrypt to signed config).2 = None ->
    (w_Write to signed config [] p).2 = None ->
    (w_Close to signed config p).2 = None ->
    ReadMessage R (concat (message to signed config p)) = Some p.

(** Modelled from the spec: the decrypting side of the round trip (section
    4.4, Decrypt, and section 8), which is not in this file: decode per
    format, then the library's decryption with the recipient's private key. *)
Definition decode_ciphertext `{Env} (format c : string) : option bytes :=
  if String.eqb format "ascii-armor" then
    match armor_Decode c with
    | Some (_, body) => Some body
    | None => None
    end
  else if String.eqb format "base64" then
    match DecodeString c with
    | (b, None) => Some b
    | (_, Some _) => None
    end
  else None.

(** Modelled from the spec: decrypting a returned ciphertext with the
    private key of [R] (section 8, the round trip). *)
Definition decrypt_with `{Env} (R : Entity) (format c : string) : option bytes :=
  match decode_ciphertext format c with
  | Some msg => ReadMessage R msg
  | None => None
  end.

(** The environment whose key ring parser keeps the first entity only. *)
Definition first_only (E : Env) : Env :=
  {| DecodeString := @DecodeString E;
     ReadArmoredKeyRing :=
       fun s => (take 1 (@ReadArmoredKeyRing E s).1, (@ReadArmoredKeyRing E s).2);
     storage_failure := @storage_failure E;
     entity := @entity E;
     armor_Encode := @armor_Encode E;
     encoder_Write := @encoder_Write E;
     encoder_Close := @encoder_Close E;
     Encrypt := @Encrypt E;
     w_Write := @w_Write E;
     w_Close := @w_Close E;
     armor_Decode := @armor_Decode E;
     ReadMessage := @ReadMessage E |}.

(** ** Reasoning about handler computations *)

(** [wp m w Q]: running [m] in [w] ends in a step and a world that satisfy
    [Q]. *)
Definition wp {A : Type} (m : M A) (w : World) (Q : Step A -> World -> Prop) : Prop :=
  Q (m w).1 (m w).2.

(** [Q] after the continuation [k], or at once when the call has ended. *)
Definition wp_k {A B : Type} (k : A -> M B) (Q : Step B -> World -> Prop)
    (s : Step A) (w : World) : Prop :=
  match s with
  | Next a => wp (k a) w Q
  | Stop o => Q (Stop o) w
  end.

Definition add_event (ev : Event) (w : World) : World :=
  {| storage := storage w; trace := trace w ++ [ev];
     ciphertext := ciphertext w; encoded := encoded w; written := written w |}.

(** ** Conditions on a request *)

(** The conditions under which lines 68-108 return nothing: the plaintext
    decodes, the algorithm and the format are among the cases of their
    switches, the recipient key is not empty and parses without error. *)
Definition passes_validation `{Env} (raw : gmap string string) : Prop :=
  (DecodeString (field raw "plaintext")).2 = None /\
  effective_algorithm raw ∈ supported_algorithms /\
  field raw "format" ∈ supported_formats /\
  field raw "recipient_key" <> "" /\
  (ReadArmoredKeyRing (field raw "recipient_key")).2 = None.

(** Lines 128-137: the encoder that the second [switch] over the format
    creates, [None] when it leaves [ciphertextEncoder] nil. *)
Definition encoder_for (format : string) : option Encoder :=
  if String.eqb format "ascii-armor" then Some (ArmorEncoder "PGP MESSAGE")
  else if String.eqb format "base64" then Some Base64Encoder
  else None.


(** The error, if any, of creating an encoder. *)
Definition creation_error `{Env} (enc : Encoder) : option error :=
  match enc with
  | ArmorEncoder blockType => (armor_Encode blockType).2
  | Base64Encoder => None
  end.

(** The fields that the path declares. *)
Definition declared_fields : list string :=
  ["name"; "plaintext"; "urlalgorithm"; "algorithm"; "format"; "recipient_key"].

(** Calls on the writer stack and the read of the buffer. *)
Definition is_output (ev : Event) : bool :=
  match ev with
  | EvWrite _ _ | EvClose _ | EvEncoderClose _ | EvBufferString => true
  | _ => false
  end.

(** A request that gets as far as line 139, the call of [Encrypt]: it passes
    validation, its key ring has a first entity, the named key is read from
    the storage and its entity derived, and the encoder of the format is
    created. *)
Definition reaches_encryption `{Env} (raw : gmap string string) (st : gmap string KeyRecord)
    (e0 signer : Entity) (h : Hash) (enc : Encoder) : Prop :=
  passes_validation raw /\
  (exists rest, (ReadArmoredKeyRing (field raw "recipient_key")).1 = e0 :: rest) /\
  hash_of (effective_algorithm raw) = Some h /\
  storage_failure (field raw "name") = None /\
  (exists entry, st !! field raw "name" = Some entry /\ entity entry = (signer, None)) /\
  encoder_for (field raw "format") = Some enc /\
  creation_error enc = None.

(** * The libraries, executable

    The handler above is stated over any [Env].  To run it on concrete
    requests the rest of this part gives one environment in full: base64 as
    [encoding/base64] does it, the armor framing of
    [golang.org/x/crypto/openpgp/armor], and a stand-in for the OpenPGP
    message format.  None of this is code of the repository; no theorem
    about the handler depends on it, only the concrete runs do. *)

(** ** [encoding/base64], standard encoding with padding *)
Module Base64.
Local Open Scope N_scope.

(** The standard alphabet of RFC 4648 ([encodeStd]). *)
Definition encodeStd : string :=
  "ABCDEFGHIJKLMNOPQRSTUVWXYZabcdefghijklmnopqrstuvwxyz0123456789+/".

Definition padChar : ascii := ascii_of_nat 61.

(** [enc.encode[d]]. *)
Definition encode_char (d : N) : ascii :=
  match String.get (N.to_nat d) encodeStd with
  | Some c => c
  | None => padChar
  end.

Fixpoint index_from (c : ascii) (s : string) (i : N) : option N :=
  match s with
  | EmptyString => None
  | String c' s' => if Ascii.eqb c c' then Some i else index_from c s' (i + 1)
  end.

(** [enc.decodeMap[c]], [None] for the 0xff entries. *)
Definition decodeMap (c : ascii) : option N := index_from c encodeStd 0.

Definition byte_of (n : N) : byte :=
  match Byte.of_N n with
  | Some b => b
  | None => x00
  end.

(** The 24-bit value of a group: [a<<16 | b<<8 | c]. *)
Definition group (a b c : byte) : N :=
  Byte.to_N a * 65536 + Byte.to_N b * 256 + Byte.to_N c.

(** The i-th of the four 6-bit digits of a 24-bit value: [val>>18&0x3F],
    [val>>12&0x3F], [val>>6&0x3F], [val&0x3F]. *)
Definition digit0 (val : N) : N := (val / 262144) mod 64.
Definition digit1 (val : N) : N := (val / 4096) mod 64.
Definition digit2 (val : N) : N := (val / 64) mod 64.
Definition digit3 (val : N) : N := val mod 64.

(** [Encoding.Encode]: full groups of three bytes, then the padded rest. *)
Fixpoint encode (src : bytes) : list ascii :=
  match src with
  | a :: b :: c :: rest =>
      let val := group a b c in
      encode_char (digit0 val) :: encode_char (digit1 val)
        :: encode_char (digit2 val) :: encode_char (digit3 val) :: encode rest
  | [a; b] =>
      let val := group a b x00 in
      [encode_char (digit0 val); encode_char (digit1 val); encode_char (digit2 val); padChar]
  | [a] =>
      let val := group a x00 x00 in
      [encode_char (digit0 val); encode_char (digit1 val); padChar; padChar]
  | [] => []
  end.

Definition EncodeToString (src : bytes) : string := string_of_list_ascii (encode src).

Definition is_newline (c : ascii) : bool :=
  Ascii.eqb c (ascii_of_nat 10) || Ascii.eqb c (ascii_of_nat 13).

Fixpoint skip_newlines (src : list ascii) (si : N) : list ascii * N :=
  match src with
  | c :: rest => if is_newline c then skip_newlines rest (si + 1) else (src, si)
  | [] => ([], si)
  end.

(** The bytes of a quantum of [dlen] digits: [val>>16], [val>>8], [val]. *)
Definition assemble (dbuf : list N) : bytes :=
  match dbuf with
  | [d0; d1; d2; d3] =>
      let val := d0 * 262144 + d1 * 4096 + d2 * 64 + d3 in
      [byte_of (val / 65536); byte_of ((val / 256) mod 256); byte_of (val mod 256)]
  | [d0; d1; d2] =>
      let val := d0 * 262144 + d1 * 4096 + d2 * 64 in
      [byte_of (val / 65536); byte_of ((val / 256) mod 256)]
  | [d0; d1] =>
      let val := d0 * 262144 + d1 * 4096 in
      [byte_of (val / 65536)]
  | _ => []
  end.

(** After the padding: only line breaks may follow. *)
Definition trailing (src : list ascii) (si : N) (dst : bytes) : bytes * option N :=
  match skip_newlines src si with
  | ([], _) => (dst, None)
  | (_ :: _, si') => (dst, Some si')
  end.

(** A pad character met at [si - 1] with [dbuf] read in this quantum. *)
Definition padding (src : list ascii) (si len : N) (dbuf : list N) (dst : bytes)
    : bytes * option N :=
  match dbuf with
  | [] | [_] => (dst, Some (si - 1))
  | [_; _] =>
      match skip_newlines src si with
      | ([], _) => (dst, Some len)
      | (c :: rest, si') =>
          if Ascii.eqb c padChar then trailing rest (si' + 1) (dst ++ assemble dbuf)
          else (dst, Some (si' - 1))
      end
  | _ => trailing src si (dst ++ assemble dbuf)
  end.

(** [Encoding.Decode]: the bytes decoded and the offset of the corrupt
    input byte, if any.  [si] is the index of the head of [src] in the whole
    input of length [len]. *)
Fixpoint decode (src : list ascii) (si len : N) (dbuf : list N) (dst : bytes)
    : bytes * option N :=
  match src with
  | [] =>
      match dbuf with
      | [] => (dst, None)
      | _ => (dst, Some (len - N.of_nat (length dbuf)))
      end
  | c :: rest =>
      match decodeMap c with
      | Some d =>
          match dbuf with
          | [_; _; _] => decode rest (si + 1) len [] (dst ++ assemble (dbuf ++ [d]))
          | _ => decode rest (si + 1) len (dbuf ++ [d]) dst
          end
      | None =>
          if is_newline c then decode rest (si + 1) len dbuf dst
          else if Ascii.eqb c padChar then padding rest (si + 1) len dbuf dst
          else (dst, Some si)
      end
  end.

Definition decimal (n : N) : string := NilEmpty.string_of_uint (N.to_uint n).

(** [CorruptInputError(off).Error()]. *)
Definition CorruptInputError (off : N) : string :=
  "illegal base64 data at input byte " +:+ decimal off.

Definition DecodeString (s : string) : bytes * option string :=
  let src := list_ascii_of_string s in
  match decode src 0 (N.of_nat (length src)) [] [] with
  | (dst, Some off) => (dst, Some (CorruptInputError off))
  | (dst, None) => (dst, None)
  end.


(** The stream encoder of [base64.NewEncoder]: a [Write] emits the full
    groups, keeping up to two bytes back; [Close] emits the padded rest. *)
Fixpoint leftover (src : bytes) : bytes :=
  match src with
  | _ :: _ :: _ :: rest => leftover rest
  | _ => src
  end.

Fixpoint full_groups (src : bytes) : list ascii :=
  match src with
  | a :: b :: c :: rest =>
      let val := group a b c in
      encode_char (digit0 val) :: encode_char (digit1 val)
        :: encode_char (digit2 val) :: encode_char (digit3 val) :: full_groups rest
  | _ => []
  end.

Definition stream_Write (prior p : bytes) : string :=
  string_of_list_ascii (full_groups (leftover prior ++ p)).

Definition stream_Close (all : bytes) : string :=
  string_of_list_ascii (encode (leftover all)).

End Base64.


(** ** ASCII armor, as [golang.org/x/crypto/openpgp/armor] frames it

    The begin line, a blank line, the base64 body, the checksum line and the
    end line.  The body is kept on one line here; the library breaks it every
    64 columns, which the framing lines do not depend on. *)
Module Armor.
Import Base64.
Local Open Scope N_scope.

Definition newline : string := String (ascii_of_nat 10) EmptyString.

(** What [Encode] writes at once: the begin line and the blank line that
    ends the (empty) headers. *)
Definition header (blockType : string) : string :=
  "-----BEGIN " +:+ blockType +:+ "-----" +:+ newline +:+ newline.

(** CRC-24 of RFC 4880, section 6.1. *)
Definition crc24_bit (crc : N) : N :=
  let crc := N.shiftl crc 1 in
  if N.testbit crc 24 then N.lxor crc 25578747 else crc.

Definition crc24_byte (crc : N) (b : byte) : N :=
  let crc := N.lxor crc (N.shiftl (Byte.to_N b) 16) in
  crc24_bit (crc24_bit (crc24_bit (crc24_bit (crc24_bit (crc24_bit (crc24_bit (crc24_bit crc))))))).

Definition crc24 (d : bytes) : N := N.land (fold_left crc24_byte d 11994318) 16777215.

Definition checksum (d : bytes) : string :=
  let crc := crc24 d in
  EncodeToString [byte_of (crc / 65536); byte_of ((crc / 256) mod 256); byte_of (crc mod 256)].

(** What [Close] writes after the last base64 group: the checksum line and
    the end line. *)
Definition footer (blockType : string) (all : bytes) : string :=
  newline +:+ "=" +:+ checksum all +:+ newline +:+ "-----END " +:+ blockType +:+ "-----".

Fixpoint strip_prefix (p s : string) : option string :=
  match p, s with
  | EmptyString, _ => Some s
  | String a p', String b s' => if Ascii.eqb a b then strip_prefix p' s' else None
  | String _ _, EmptyString => None
  end.

(** The text up to the first line feed, and the text after it. *)
Fixpoint break_line (s : string) : option (string * string) :=
  match s with
  | EmptyString => None
  | String c s' =>
      if Ascii.eqb c (ascii_of_nat 10) then Some (EmptyString, s')
      else match break_line s' with
           | Some (l, r) => Some (String c l, r)
           | None => None
           end
  end.

(** No line feed in the text. *)
Definition one_line (s : string) : Prop :=
  Forall (fun c => Ascii.eqb c (ascii_of_nat 10) = false) (list_ascii_of_string s).

Definition strip_suffix (p s : string) : option string :=
  match strip_prefix (String.rev p) (String.rev s) with
  | Some r => Some (String.rev r)
  | None => None
  end.

(** [Decode] for a block without headers whose body is one line: the block
    type and the body, when the framing and the checksum are right. *)
Definition Decode (s : string) : option (string * bytes) :=
  rest ← strip_prefix "-----BEGIN " s;
  '(line, rest) ← break_line rest;
  blockType ← strip_suffix "-----" line;
  rest ← strip_prefix newline rest;
  '(body, rest) ← break_line rest;
  rest ← strip_prefix "=" rest;
  '(sum, rest) ← break_line rest;
  if String.eqb rest ("-----END " +:+ blockType +:+ "-----") then
    match DecodeString body with
    | (b, None) => if String.eqb sum (checksum b) then Some (blockType, b) else None
    | (_, Some _) => None
    end
  else None.

End Armor.

(** ** A transparent stand-in for the OpenPGP message format

    One packet [01 id] per recipient, a [00] packet with the hash and the
    signer, then the literal data as they are.  It has the shape the handler
    relies on (a message is addressed to the entities of [to]; any of them
    reads the data back) and no secrecy. *)
Module Sealed.
Import Base64.
Local Open Scope N_scope.

Definition id_byte (e : Entity) : byte := byte_of (KeyId e mod 256).

Definition hash_byte (h : Hash) : byte :=
  match h with
  | HashUnset => x00
  | SHA224 => x0b
  | SHA256 => x08
  | SHA384 => x09
  | SHA512 => x0a
  end.

Definition recipients (to : list Entity) : bytes :=
  concat (map (fun e => [x01; id_byte e]) to).

Definition prologue (to : list Entity) (signed : Entity) (config : Config) : bytes :=
  recipients to ++ [x00; hash_byte (DefaultHash config); id_byte signed].

(** Reads the recipient packets, then hands back the data when [k] is among
    the recipients. *)
Fixpoint open_for (k : byte) (found : bool) (msg : bytes) : option bytes :=
  match msg with
  | x01 :: id :: rest => open_for k (found || bool_decide (id = k)) rest
  | x00 :: _ :: _ :: data => if found then Some data else None
  | _ => None
  end.

End Sealed.

(** ** An executable environment

    Base64 and armor as above, the stand-in message format, a storage that
    never fails, and a key ring parser that follows the steps of
    [openpgp.ReadArmoredKeyRing]: text without an armored block is an error,
    a block of another type than a key block is an error, and otherwise the
    entities read from the body are returned with the error [ReadKeyRing]
    ends with, [lastUnsupportedError], which is nil when no packet was
    skipped; so a key block without packets yields the empty list and a nil
    error.  A body byte stands for one key packet here. *)
Module Reference.

Definition NoArmor : error := Err "openpgp: invalid argument: no armored data found".

Definition read_keyring (s : string) : list Entity * option error :=
  match Armor.Decode s with
  | None => ([], Some NoArmor)
  | Some (blockType, body) =>
      if String.eqb blockType "PGP PUBLIC KEY BLOCK" || String.eqb blockType "PGP PRIVATE KEY BLOCK"
      then (map (fun b => {| KeyId := Byte.to_N b |}) body, None)
      else ([], Some (Err ("openpgp: invalid argument: expected public or private key block, got: "
                           +:+ blockType)))
  end.

Definition decode_string (s : string) : bytes * option error :=
  match Base64.DecodeString s with
  | (b, Some text) => (b, Some (Err text))
  | (b, None) => (b, None)
  end.

Definition derive (entry : KeyRecord) : Entity * option error :=
  match serializedKey entry with
  | b :: _ => ({| KeyId := Byte.to_N b |}, None)
  | [] => ({| KeyId := 0 |}, Some (Err "openpgp: no key in the stored record"))
  end.

Definition close_encoder (enc : Encoder) (all : bytes) : string * option error :=
  match enc with
  | ArmorEncoder blockType => (Base64.stream_Close all +:+ Armor.footer blockType all, None)
  | Base64Encoder => (Base64.stream_Close all, None)
  end.

#[export] Instance env : Env := {|
  DecodeString := decode_string;
  ReadArmoredKeyRing := read_keyring;
  storage_failure := fun _ => None;
  entity := derive;
  armor_Encode := fun blockType => (Armor.header blockType, None);
  encoder_Write := fun _ prior p => Base64.stream_Write prior p;
  encoder_Close := close_encoder;
  Encrypt := fun to signed config => (Sealed.prologue to signed config, None);
  w_Write := fun _ _ _ _ p => (p, None);
  w_Close := fun _ _ _ _ => ([], None);
  armor_Decode := Armor.Decode;
  ReadMessage := fun R msg => Sealed.open_for (Sealed.id_byte R) false msg;
|}.

(** The same environment with a writer whose [Close] fails. *)
Definition env_failing_close (e : error) : Env := {|
  DecodeString := decode_string;
  ReadArmoredKeyRing := read_keyring;
  storage_failure := fun _ => None;
  entity := derive;
  armor_Encode := fun blockType => (Armor.header blockType, None);
  encoder_Write := fun _ prior p => Base64.stream_Write prior p;
  encoder_Close := close_encoder;
  Encrypt := fun to signed config => (Sealed.prologue to signed config, None);
  w_Write := fun _ _ _ _ p => (p, None);
  w_Close := fun _ _ _ _ => ([], Some e);
  armor_Decode := Armor.Decode;
  ReadMessage := fun R msg => Sealed.open_for (Sealed.id_byte R) false msg;
|}.

(** Sample data: the armored key ring of the given key ids, a stored key,
    and a request. *)
Definition armored_keys (ids : bytes) : string :=
  Armor.header "PGP PUBLIC KEY BLOCK" +:+ Base64.EncodeToString ids
    +:+ Armor.footer "PGP PUBLIC KEY BLOCK" ids.

Definition keys : string := armored_keys [x01; x02].

Definition alice : KeyRecord :=
  {| serializedKey := [x0a]; realName := "Alice"; email := "alice@example.org"; keyBits := 2048 |}.

Definition store : gmap string KeyRecord := {[ "alice" := alice ]}.

Definition request (recipient_key : string) : gmap string string :=
  <["name" := "alice"]> (<["plaintext" := "aGVsbG8="]> (<["recipient_key" := recipient_key]> ∅)).

(** Where a fault is injected: the storage read, the entity derivation,
    [armor.Encode], [Encrypt] or [Write]. *)
Inductive Fault : Type := InStorage | InEntity | InArmor | InEncrypt | InWrite.

(** The error [e] at the place of the fault, nil elsewhere. *)
Definition fails (fault place : Fault) (e : error) : option error :=
  match fault, place with
  | InStorage, InStorage | InEntity, InEntity | InArmor, InArmor
  | InEncrypt, InEncrypt | InWrite, InWrite => Some e
  | _, _ => None
  end.

(** The reference environment with one collaborator failing. *)
Definition env_failing (fault : Fault) (e : error) : Env := {|
  DecodeString := decode_string;
  ReadArmoredKeyRing := read_keyring;
  storage_failure := fun _ => fails fault InStorage e;
  entity := fun entry => ((derive entry).1, fails fault InEntity e);
  armor_Encode := fun blockType => (Armor.header blockType, fails fault InArmor e);
  encoder_Write := fun _ prior p => Base64.stream_Write prior p;
  encoder_Close := close_encoder;
  Encrypt := fun to signed config => (Sealed.prologue to signed config, fails fault InEncrypt e);
  w_Write := fun _ _ _ _ p => (p, fails fault InWrite e);
  w_Close := fun _ _ _ _ => ([], None);
  armor_Decode := Armor.Decode;
  ReadMessage := fun R msg => Sealed.open_for (Sealed.id_byte R) false msg;
|}.

End Reference.

(** * Proofs *)

(** ** Symbolic execution of the handler *)

Lemma Get_field raw k :
  is_Some (pathEncrypt_Fields !! k) ->
  Get (fieldData raw) k = ret (field raw k).
Proof.
  intros [s Hs]. unfold Get, field, FieldData_Get. simpl. rewrite Hs.
  by destruct (raw !! k).
Qed.

Lemma algorithm_of_effective raw :
  algorithm_of (fieldData raw) = ret (effective_algorithm raw).
Proof.
  unfold algorithm_of, effective_algorithm.
  rewrite !Get_field by (by eexists). unfold bind, ret.
  by destruct (String.eqb (field raw "urlalgorithm") "").
Qed.

Lemma wp_bind {A B} (m : M A) (k : A -> M B) w Q :
  wp m w (wp_k k Q) -> wp (bind m k) w Q.
Proof.
  unfold wp, wp_k, bind. by destruct (m w) as [[a|o] w'].
Qed.

Lemma wp_ret {A} (a : A) w Q : Q (Next a) w -> wp (ret a) w Q.
Proof. done. Qed.

Lemma wp_Return {A} r e w (Q : Step A -> World -> Prop) :
  Q (Stop (Returned r e)) w -> wp (Return r e) w Q.
Proof. done. Qed.

Lemma wp_panic {A} s w (Q : Step A -> World -> Prop) :
  Q (Stop (Panicked s)) w -> wp (panic s) w Q.
Proof. done. Qed.

Lemma wp_run (m : M Outcome) w (P : Outcome * World -> Prop) :
  wp m w (fun s w' => match s with Next o | Stop o => P (o, w') end) -> P (run m w).
Proof. unfold wp, run. by destruct (m w) as [[o|o] w']. Qed.

Lemma wp_log ev w Q : Q (Next tt) (add_event ev w) -> wp (log ev) w Q.
Proof. done. Qed.
Lemma wp_get_world w Q : Q (Next w) w -> wp get_world w Q.
Proof. done. Qed.

(** Reduction of what one step leaves behind: projections of worlds, of
    locals and of the environment. *)
Ltac wp_red := cbn [wp_k fst snd add_event storage trace ciphertext encoded written initial ciphertextWriter to signed config
   plaintext l_config format recipientKeyList err app
   DecodeString ReadArmoredKeyRing storage_failure entity armor_Encode
   encoder_Write encoder_Close Encrypt w_Write w_Close].

(** A scrutinee is settled when it is a constructor; it is rewritten with an
    equation of the context or computed when that settles it, and case
    analysed, keeping the equation, otherwise. *)
Ltac is_value v :=
  lazymatch v with
  | Some _ => idtac
  | None => idtac
  | true => idtac
  | false => idtac
  | (_, _) => idtac
  | [] => idtac
  | _ :: _ => idtac
  end.

Ltac wp_case x :=
  first
    [ is_value x
    | match goal with
      | H : ?y = _ |- _ =>
          lazymatch x with context [y] => rewrite H; cbn [fst snd take] end
      end
    | let v := eval cbn in x in is_value v; change x with v
    | destruct x eqn:? ].

(** One step of the handler: the rule of the statement at the head. *)
Ltac wp_prim :=
  match goal with
  | |- wp (bind _ _) _ _ => apply wp_bind
  | |- wp (ret _) _ _ => apply wp_ret
  | |- wp (Return _ _) _ _ => apply wp_Return
  | |- wp (panic _) _ _ => apply wp_panic
  | |- wp nil_dereference _ _ => apply wp_panic
  | |- wp (log _) _ _ => apply wp_log
  | |- wp get_world _ _ => apply wp_get_world
  | |- wp (buffer_Write _) _ _ => unfold wp, buffer_Write
  | |- wp (set_encoded _) _ _ => unfold wp, set_encoded
  | |- wp (set_written _) _ _ => unfold wp, set_written
  | |- wp new_Buffer _ _ => unfold wp, new_Buffer
  | |- wp (algorithm_of (fieldData ?raw)) _ _ => rewrite (algorithm_of_effective raw)
  | |- wp (Get (fieldData ?raw) ?k) _ _ => rewrite (Get_field raw k) by (by eexists)
  | |- wp (if_err ?e _) _ _ => wp_case e; unfold if_err; cbv iota beta
  | |- wp (if ?b then _ else _) _ _ => wp_case b; cbv iota beta
  | |- wp (let '(_, _) := ?r in _) _ _ => wp_case r; cbv iota beta
  | |- wp (match ?x with Some _ => _ | None => _ end) _ _ => wp_case x; cbv iota beta
  | |- wp (match ?x with [] => _ | _ :: _ => _ end) _ _ => wp_case x; cbv iota beta
  | |- wp_k _ _ _ _ => progress wp_red
  | |- wp (?f _ _ _ _ _) _ _ => unfold f
  | |- wp (?f _ _ _ _) _ _ => unfold f
  | |- wp (?f _ _ _) _ _ => unfold f
  | |- wp (?f _ _) _ _ => unfold f
  | |- wp (?f _) _ _ => unfold f
  | |- wp ?f _ _ => unfold f
  end.
(** Runs a computation to its ends: one goal per path, with the outcome and
    the world of that path and the conditions that led there. *)
Ltac wp_exec := repeat (wp_prim; wp_red).
Ltac wp_call := unfold call; apply wp_run; wp_exec; wp_red.

(** ** Properties of the handler, for every environment *)

Lemma append_assoc (s1 s2 s3 : string) : (s1 +:+ s2) +:+ s3 = s1 +:+ (s2 +:+ s3).
Proof.
  induction s1 as [|c s1 IH]; [reflexivity|].
  change (String c ((s1 +:+ s2) +:+ s3) = String c (s1 +:+ (s2 +:+ s3))).
  by rewrite IH.
Qed.

Lemma begins_app (p s t : string) :
  (exists r, s = p +:+ r) -> exists r, s +:+ t = p +:+ r.
Proof. intros [r ->]. exists (r +:+ t). apply append_assoc. Qed.

Lemma ends_app (p s t : string) :
  (exists r, t = r +:+ p) -> exists r, s +:+ t = r +:+ p.
Proof. intros [r ->]. exists (s +:+ r). symmetry. apply append_assoc. Qed.

Lemma hash_of_None (a : string) : hash_of a = None <-> a ∉ supported_algorithms.
Proof.
  unfold hash_of, supported_algorithms.
  rewrite !not_elem_of_cons.
  repeat match goal with
  | |- context [String.eqb a ?s] => destruct (String.eqb_spec a s) as [->|?]
  end; split; try done; try tauto.
  intros _. split_and!; try done. apply not_elem_of_nil.
Qed.

Lemma known_format_true (f : string) : known_format f = true <-> f ∈ supported_formats.
Proof.
  unfold known_format, supported_formats.
  rewrite !elem_of_cons, elem_of_nil.
  repeat match goal with
  | |- context [String.eqb f ?s] => destruct (String.eqb_spec f s) as [->|?]
  end; split; try done; tauto.
Qed.

Lemma known_format_other (f : string) :
  known_format f = true -> String.eqb f "ascii-armor" = false ->
  String.eqb f "base64" = false -> False.
Proof. unfold known_format. intros H Ha Hb. rewrite Ha, Hb in H. discriminate. Qed.

(** Membership in a trace that is known event by event. *)
Ltac in_trace :=
  repeat match goal with
  | H : _ ∈ [] |- _ => by apply elem_of_nil in H
  | H : _ ∈ _ :: _ |- _ => apply elem_of_cons in H; destruct H
  | H : _ \/ _ |- _ => destruct H
  | |- _ ∉ _ => intros ?
  end; simplify_eq.

Section Handler.
Context `{E : Env}.

(** C6.  Algorithm selection: the handler goes on with the effective
    algorithm, which is [urlalgorithm] when that is a non-empty string,
    the body's [algorithm] when [urlalgorithm] is absent or empty, and
    sha2-256, the default the path declares, when the request carries
    neither; and every encryption the handler starts is configured with the
    hash of the effective algorithm. *)
Theorem algorithm_selection (raw : gmap string string) (st : gmap string KeyRecord)
    (w : World) :
  algorithm_of (fieldData raw) w = (Next (effective_algorithm raw), w) /\
  (forall u, raw !! "urlalgorithm" = Some u -> u <> "" -> effective_algorithm raw = u) /\
  (forall a, raw !! "urlalgorithm" = None \/ raw !! "urlalgorithm" = Some "" ->
     raw !! "algorithm" = Some a -> effective_algorithm raw = a) /\
  (raw !! "urlalgorithm" = None \/ raw !! "urlalgorithm" = Some "" ->
   raw !! "algorithm" = None ->
   effective_algorithm raw = "sha2-256" /\ hash_of (effective_algorithm raw) = Some SHA256) /\
  (forall to s c, EvEncrypt to s c ∈ trace (call raw st).2 ->
     hash_of (effective_algorithm raw) = Some (DefaultHash c)).
Proof.
  split; [by rewrite algorithm_of_effective|].
  split_and!.
  - unfold effective_algorithm, field, FieldData_Get. cbn [Raw Schema fieldData].
    change (pathEncrypt_Fields !! "urlalgorithm") with (Some {| Default := None |}).
    intros u -> Hu. cbn. by destruct (String.eqb_spec u "").
  - unfold effective_algorithm, field, FieldData_Get. cbn [Raw Schema fieldData].
    change (pathEncrypt_Fields !! "urlalgorithm") with (Some {| Default := None |}).
    change (pathEncrypt_Fields !! "algorithm") with (Some {| Default := Some "sha2-256" |}).
    by intros a [-> | ->] ->.
  - unfold effective_algorithm, field, FieldData_Get. cbn [Raw Schema fieldData].
    change (pathEncrypt_Fields !! "urlalgorithm") with (Some {| Default := None |}).
    change (pathEncrypt_Fields !! "algorithm") with (Some {| Default := Some "sha2-256" |}).
    by intros [-> | ->] ->.
  - wp_call; intros to' s c Hin; in_trace; done.
Qed.

(** C10.  On every path the stored key records after the call are those
    before it, and the handler's storage traffic is at most one read, of
    the record named by the request. *)
Theorem storage_only_read (raw : gmap string string) (st : gmap string KeyRecord) :
  storage (call raw st).2 = st /\
  List.filter is_storage_write (trace (call raw st).2) = [] /\
  (List.filter is_storage (trace (call raw st).2) = [] \/
   List.filter is_storage (trace (call raw st).2) = [EvStorageGet (field raw "name")]).
Proof. wp_call; (split_and!; [reflexivity | reflexivity | cbn; auto]). Qed.

Lemma recheck_sees_nil raw w :
  wp (pathEncryptWrite_recipient (fieldData raw)) w
     (fun s _ => match s with Next l => err l = None | Stop _ => True end).
Proof. wp_exec; done. Qed.

(** C9.  Whenever execution reaches line 110, [err] is nil, so the return of
    lines 110-112 is never taken; and the handler with those lines deleted
    ends every call with the same outcome in the same world. *)
Theorem recheck_unreachable (raw : gmap string string) (w : World) :
  match pathEncryptWrite_recipient (fieldData raw) w with
  | (Next l, _) => err l = None
  | (Stop _, _) => True
  end /\
  run (pathEncryptWrite (fieldData raw)) w
  = run (pathEncryptWrite_without_recheck (fieldData raw)) w.
Proof.
  pose proof (recheck_sees_nil raw w) as H. unfold wp in H.
  unfold run, pathEncryptWrite, pathEncryptWrite_without_recheck, bind.
  destruct (pathEncryptWrite_recipient (fieldData raw) w) as [[l|o] w']; [|done].
  simpl in H. by rewrite H.
Qed.

(** C7 (amended).  With an empty [recipient_key] the only call the handler
    makes is the base64 decoding of the plaintext: no key ring is parsed,
    no key is looked up, nothing is encrypted.  When moreover the plaintext
    decodes and the algorithm and the format are supported, the handler
    returns the error response "recipient_key not exist" together with
    [ErrInvalidRequest]. *)
Theorem missing_recipient_rejected (raw : gmap string string) (st : gmap string KeyRecord) :
  field raw "recipient_key" = "" ->
  trace (call raw st).2 = [EvDecodeString (field raw "plaintext")] /\
  ((DecodeString (field raw "plaintext")).2 = None ->
   effective_algorithm raw ∈ supported_algorithms ->
   field raw "format" ∈ supported_formats ->
   (call raw st).1
   = Returned (Some (ErrorResponse "recipient_key not exist")) (Some ErrInvalidRequest)).
Proof.
  intros Hrk. wp_call.
  all: split; [reflexivity | intros Hd Ha Hf%known_format_true].
  all: try done; try (by apply hash_of_None in Ha); congruence.
Qed.

(** C4 (amended).  With an algorithm outside sha2-224, sha2-256, sha2-384
    and sha2-512 the stored key records are unchanged and the only call the
    handler makes is the base64 decoding of the plaintext: no storage
    access, no cryptographic operation.  When moreover the plaintext
    decodes, the handler returns the error response "unsupported algorithm
    ..." with a nil error. *)
Theorem unsupported_algorithm_rejected (raw : gmap string string) (st : gmap string KeyRecord) :
  effective_algorithm raw ∉ supported_algorithms ->
  storage (call raw st).2 = st /\
  trace (call raw st).2 = [EvDecodeString (field raw "plaintext")] /\
  ((DecodeString (field raw "plaintext")).2 = None ->
   (call raw st).1
   = Returned (Some (ErrorResponse ("unsupported algorithm " +:+ effective_algorithm raw))) None).
Proof.
  intros Ha%hash_of_None. wp_call.
  all: split_and!; try done; intros Hd; cbn [snd] in Hd; congruence.
Qed.


(** What the handler does with a key ring that is empty though the parser
    reported no error: line 109 indexes it. *)
Lemma index_panics_on_empty_key_ring (raw : gmap string string)
    (st : gmap string KeyRecord) :
  (DecodeString (field raw "plaintext")).2 = None ->
  effective_algorithm raw ∈ supported_algorithms ->
  field raw "format" ∈ supported_formats ->
  field raw "recipient_key" <> "" ->
  ReadArmoredKeyRing (field raw "recipient_key") = ([], None) ->
  (call raw st).1 = Panicked "index out of range [0] with length 0".
Proof.
  intros Hd Ha Hf%known_format_true Hrk Hk. revert Hd.
  wp_call; intros Hd; cbn [snd] in Hd; try congruence.
  - by destruct (String.eqb_spec (field raw "recipient_key") "").
  - by apply hash_of_None in Ha.
Qed.

(** C2.  A call that returns a ciphertext returns it with a nil error and
    has closed the OpenPGP writer, then the encoder, then read the buffer, in
    this order and as its last three calls, neither close having failed and
    the response carrying the buffer as read; and when a [Close] of either
    writer returns an error the call returns that error with no response,
    the buffer never read. *)
Theorem writers_closed_before_read (raw : gmap string string) (st : gmap string KeyRecord) :
  (forall c err, (call raw st).1 = Returned (Some (CiphertextResponse c)) err ->
     err = None /\
     c = ciphertext (call raw st).2 /\
     exists pre,
       trace (call raw st).2 = pre ++ [EvClose None; EvEncoderClose None; EvBufferString] /\
       forall ev, ev ∈ pre ->
         ev <> EvBufferString /\ (forall e, ev <> EvClose e /\ ev <> EvEncoderClose e)) /\
  (forall e,
     EvClose (Some e) ∈ trace (call raw st).2 \/
     EvEncoderClose (Some e) ∈ trace (call raw st).2 ->
     (call raw st).1 = Returned None (Some e) /\ EvBufferString ∉ trace (call raw st).2).
Proof.
  wp_call.
  all: split; [intros c err' Hc; simplify_eq/= | intros e' He'; in_trace].
  all: try (split_and!; [reflexivity..|];
            eexists (_ :: _ :: _ :: _ :: _ :: _ :: _ :: []); split; [reflexivity|];
            intros ev Hev; in_trace; done).
  all: split; [done|]; in_trace.
Qed.

Lemma first_only_call (raw : gmap string string) (st : gmap string KeyRecord) :
  @call E raw st = @call (first_only E) raw st.
Proof.
  remember (@call (first_only E) raw st) as rhs eqn:Hrhs.
  wp_call.
  all: subst rhs; symmetry; unfold first_only; wp_call; reflexivity.
Qed.

(** The buffer of a successful call is the output of the encoder over the
    three chunks of the message. *)
Lemma buffer_is_encoder_output (enc : Encoder) (buf : string) (o c1 c2 : bytes) :
  buf = encoder_header enc ->
  (((buf +:+ encoder_Write enc [] o) +:+ encoder_Write enc o c1)
     +:+ encoder_Write enc (o ++ c1) c2) +:+ (encoder_Close enc ((o ++ c1) ++ c2)).1
  = encoder_output enc [o; c1; c2].
Proof.
  intros ->. unfold encoder_output. cbn [encoder_stream app].
  by rewrite !append_assoc.
Qed.

Lemma concat3 (o c1 c2 : bytes) : concat [o; c1; c2] = (o ++ c1) ++ c2.
Proof. cbn. by rewrite app_nil_r, app_assoc. Qed.

(** C5.  When the key ring of [recipient_key] parses to one or more
    entities, the first entity is the sole recipient: every encryption the
    handler starts is addressed to the list holding the first entity alone;
    a call that returns a ciphertext has started the encryption for that
    list and returns the encoding of the message made for it; and the
    further entities are ignored: the call ends as it does when the parser
    returns the first entity only. *)
Theorem first_entity_is_sole_recipient (raw : gmap string string)
    (st : gmap string KeyRecord) :
  (forall e0 rest to s c,
      ReadArmoredKeyRing (field raw "recipient_key") = (e0 :: rest, None) ->
      EvEncrypt to s c ∈ trace (call raw st).2 -> to = [e0]) /\
  (forall e0 rest c err,
      ReadArmoredKeyRing (field raw "recipient_key") = (e0 :: rest, None) ->
      (call raw st).1 = Returned (Some (CiphertextResponse c)) err ->
      exists s cfg enc,
        EvEncrypt [e0] s cfg ∈ trace (call raw st).2 /\
        c = encoder_output enc
              (message [e0] s cfg (DecodeString (field raw "plaintext")).1)) /\
  @call E raw st = @call (first_only E) raw st.
Proof.
  split_and!; [| |apply first_only_call].
  - intros e0 rest to' s c Hk. revert to' s c.
    wp_call; intros to' s c Hin; in_trace; done.
  - intros e0 rest c err' Hk. revert c err'.
    wp_call; intros c err' Hc; simplify_eq.
    all: first
      [ eexists _, _, (ArmorEncoder "PGP MESSAGE"); split; [by repeat constructor|];
        unfold message; erewrite <- buffer_is_encoder_output by reflexivity;
        repeat match goal with H : _ = (_, _) |- _ => rewrite H end; reflexivity
      | eexists _, _, Base64Encoder; split; [by repeat constructor|];
        unfold message; erewrite <- buffer_is_encoder_output by reflexivity;
        repeat match goal with H : _ = (_, _) |- _ => rewrite H end; reflexivity ].
Qed.

(** C8.  Given armor framing, a call with format ascii-armor that returns a
    ciphertext returns one that begins with the begin line of a PGP MESSAGE
    block and ends with its end line. *)
Theorem armored_output_framed (raw : gmap string string) (st : gmap string KeyRecord)
    (c : string) :
  armor_frames ->
  field raw "format" = "ascii-armor" ->
  (call raw st).1 = Returned (Some (CiphertextResponse c)) None ->
  (exists rest, c = "-----BEGIN PGP MESSAGE-----" +:+ rest) /\
  (exists text, c = text +:+ "-----END PGP MESSAGE-----").
Proof.
  intros Hframes Hfmt. revert c. wp_call; intros c Hc; simplify_eq.
  - destruct (Hframes "PGP MESSAGE") as [Hb He]. split.
    + do 4 apply begins_app. destruct Hb as [rest Hrest]; [done|].
      exists rest. exact Hrest.
    + apply ends_app. by apply He.
Qed.

(** C3.  Given that decoding undoes encoding and that a recipient reads back
    what was written to a message, a call that returns a ciphertext returns
    one that, decoded per the request's format and decrypted with the key of
    the first entity of the recipient's key ring, yields exactly the bytes
    that the plaintext field encodes. *)
Theorem encrypt_round_trip (raw : gmap string string) (st : gmap string KeyRecord)
    (c : string) (R : Entity) (rest : list Entity) :
  base64_round_trip -> armor_round_trip -> message_round_trip ->
  (call raw st).1 = Returned (Some (CiphertextResponse c)) None ->
  (ReadArmoredKeyRing (field raw "recipient_key")).1 = R :: rest ->
  decrypt_with R (field raw "format") c = Some (DecodeString (field raw "plaintext")).1.
Proof.
  intros Hb64 Harmor Hmsg. revert c.
  wp_call; intros c Hc Hk; simplify_eq.
  all: repeat match goal with
       | H : ?f _ = (_, _) |- _ => rewrite H in *; cbn [fst snd] in *
       end; simplify_eq.
  all: unfold decrypt_with, decode_ciphertext.
  all: repeat match goal with
       | H : String.eqb (field _ "format") _ = _ |- _ => rewrite H
       end.
  - erewrite buffer_is_encoder_output by reflexivity.
    rewrite Harmor by (rewrite ?concat3; done).
    apply Hmsg; [by apply list_elem_of_singleton | done..].
  - erewrite buffer_is_encoder_output by reflexivity.
    rewrite Hb64 by (rewrite ?concat3; done).
    apply Hmsg; [by apply list_elem_of_singleton | done..].
Qed.

End Handler.

(** ** Further properties of the handler: rejections, failures, success *)

Lemma known_format_false (f : string) : known_format f = false <-> f ∉ supported_formats.
Proof.
  rewrite <- known_format_true. by destruct (known_format f).
Qed.

Lemma hash_of_Some (a : string) : a ∈ supported_algorithms -> exists h, hash_of a = Some h.
Proof.
  intros Ha. destruct (hash_of a) as [h|] eqn:Hh; [by exists h|].
  by apply hash_of_None in Hh.
Qed.

(** What is known of an answer becomes an equation that the execution
    rewrites with. *)
Ltac known_answer H :=
  match type of H with
  | (?p).2 = _ =>
      let a := fresh "v" in
      let b := fresh "o" in
      destruct p as [a b] eqn:?; cbn [snd] in H; subst b
  end.

Section Paths.
Context `{E : Env}.

(** The conditions of a request that passes validation, as the equations
    that the execution of the handler meets. *)
Lemma passes_validation_elim (raw : gmap string string) :
  passes_validation raw ->
  exists b h el,
    DecodeString (field raw "plaintext") = (b, None) /\
    hash_of (effective_algorithm raw) = Some h /\
    known_format (field raw "format") = true /\
    String.eqb (field raw "recipient_key") "" = false /\
    ReadArmoredKeyRing (field raw "recipient_key") = (el, None).
Proof.
  intros (Hd & Ha & Hf & Hrk & Hk).
  apply hash_of_Some in Ha as [h Hh].
  destruct (DecodeString (field raw "plaintext")) as [b o] eqn:Hb.
  destruct (ReadArmoredKeyRing (field raw "recipient_key")) as [el o'] eqn:Hel.
  cbn [snd] in Hd, Hk. subst o o'.
  exists b, h, el. split_and!; try done.
  - by apply known_format_true.
  - by apply String.eqb_neq.
Qed.

Lemma passes_validation_intro (raw : gmap string string) (b : bytes) (h : Hash)
    (el : list Entity) :
  DecodeString (field raw "plaintext") = (b, None) ->
  hash_of (effective_algorithm raw) = Some h ->
  known_format (field raw "format") = true ->
  String.eqb (field raw "recipient_key") "" = false ->
  ReadArmoredKeyRing (field raw "recipient_key") = (el, None) ->
  passes_validation raw.
Proof.
  intros Hd Hh Hf Hrk Hk. repeat split.
  - by rewrite Hd.
  - destruct (decide (effective_algorithm raw ∈ supported_algorithms)) as [|Hn]; [done|].
    apply hash_of_None in Hn. congruence.
  - by apply known_format_true.
  - by apply String.eqb_neq.
  - by rewrite Hk.
Qed.

(** The same for a request with a non-empty key ring. *)
Lemma valid_with_recipient (raw : gmap string string) :
  passes_validation raw ->
  (ReadArmoredKeyRing (field raw "recipient_key")).1 <> [] ->
  exists b h e0 el,
    DecodeString (field raw "plaintext") = (b, None) /\
    hash_of (effective_algorithm raw) = Some h /\
    known_format (field raw "format") = true /\
    String.eqb (field raw "recipient_key") "" = false /\
    ReadArmoredKeyRing (field raw "recipient_key") = (e0 :: el, None).
Proof.
  intros (b & h & el & Hd & Hh & Hf & Hrk & Hk)%passes_validation_elim Hne.
  rewrite Hk in Hne. destruct el as [|e0 el]; [done|].
  by exists b, h, e0, el.
Qed.

(** The conditions of [reaches_encryption], likewise, with the two encoders
    apart. *)
Lemma reaches_encryption_elim (raw : gmap string string) (st : gmap string KeyRecord)
    (e0 signer : Entity) (h : Hash) (enc : Encoder) :
  reaches_encryption raw st e0 signer h enc ->
  exists b el entry,
    DecodeString (field raw "plaintext") = (b, None) /\
    hash_of (effective_algorithm raw) = Some h /\
    known_format (field raw "format") = true /\
    String.eqb (field raw "recipient_key") "" = false /\
    ReadArmoredKeyRing (field raw "recipient_key") = (e0 :: el, None) /\
    storage_failure (field raw "name") = None /\
    st !! field raw "name" = Some entry /\
    entity entry = (signer, None) /\
    ((String.eqb (field raw "format") "ascii-armor" = true /\
      enc = ArmorEncoder "PGP MESSAGE" /\
      exists text, armor_Encode "PGP MESSAGE" = (text, None)) \/
     (String.eqb (field raw "format") "ascii-armor" = false /\
      String.eqb (field raw "format") "base64" = true /\
      enc = Base64Encoder)).
Proof.
  intros (Hv & [rest Hr] & Hh & Hs & (entry & Hst & Hent) & Henc & Hcr).
  apply passes_validation_elim in Hv as (b & h' & el & Hd & Hh' & Hf & Hrk & Hk).
  rewrite Hk in Hr. cbn [fst] in Hr. subst el.
  exists b, rest, entry. split_and!; try done.
  unfold encoder_for in Henc.
  destruct (String.eqb (field raw "format") "ascii-armor") eqn:Ha.
  - left. simplify_eq. cbn [creation_error] in Hcr.
    destruct (armor_Encode "PGP MESSAGE") as [text o] eqn:Hae. cbn [snd] in Hcr. subst o.
    split_and!; try done. by exists text.
  - right. destruct (String.eqb (field raw "format") "base64") eqn:Hb; [|done].
    by simplify_eq.
Qed.

Lemma reaches_encryption_intro (raw : gmap string string) (st : gmap string KeyRecord)
    (b : bytes) (h : Hash) (e0 : Entity) (el : list Entity) (entry : KeyRecord)
    (signer : Entity) (enc : Encoder) :
  DecodeString (field raw "plaintext") = (b, None) ->
  hash_of (effective_algorithm raw) = Some h ->
  known_format (field raw "format") = true ->
  String.eqb (field raw "recipient_key") "" = false ->
  ReadArmoredKeyRing (field raw "recipient_key") = (e0 :: el, None) ->
  storage_failure (field raw "name") = None ->
  st !! field raw "name" = Some entry ->
  entity entry = (signer, None) ->
  encoder_for (field raw "format") = Some enc ->
  creation_error enc = None ->
  reaches_encryption raw st e0 signer h enc.
Proof.
  intros Hd Hh Hf Hrk Hk Hs Hst Hent Henc Hcr.
  split; [by eapply passes_validation_intro|].
  split_and!; try done.
  - exists el. by rewrite Hk.
  - by exists entry.
Qed.

Lemma encoder_for_armor (f : string) :
  String.eqb f "ascii-armor" = true -> encoder_for f = Some (ArmorEncoder "PGP MESSAGE").
Proof. unfold encoder_for. by intros ->. Qed.

Lemma encoder_for_base64 (f : string) :
  String.eqb f "ascii-armor" = false -> String.eqb f "base64" = true ->
  encoder_for f = Some Base64Encoder.
Proof. unfold encoder_for. by intros -> ->. Qed.

(** The buffer that the execution of a successful path builds is the output
    of the encoder over the message. *)
Lemma encoded_message (enc : Encoder) (o c1 c2 : bytes) :
  ((((("" +:+ encoder_header enc) +:+ encoder_Write enc [] o) +:+ encoder_Write enc o c1)
      +:+ encoder_Write enc (o ++ c1) c2) +:+ (encoder_Close enc ((o ++ c1) ++ c2)).1)
  = encoder_output enc [o; c1; c2].
Proof.
  unfold encoder_output. cbn [encoder_stream app]. by rewrite !append_assoc.
Qed.

(** X1.  A plaintext that is not base64 is rejected first, whatever the rest
    of the request: the handler returns the error response "unable to decode
    plaintext as base64: ..." with the decoder's message together with
    [ErrInvalidRequest], and the decoding is the only call it makes. *)
Theorem undecodable_plaintext_rejected (raw : gmap string string)
    (st : gmap string KeyRecord) (e : error) :
  (DecodeString (field raw "plaintext")).2 = Some e ->
  (call raw st).1
  = Returned (Some (ErrorResponse ("unable to decode plaintext as base64: " +:+ Error e)))
             (Some ErrInvalidRequest) /\
  trace (call raw st).2 = [EvDecodeString (field raw "plaintext")].
Proof. intros Hd. known_answer Hd. wp_call. done. Qed.

(** X2.  With a format other than base64 and ascii-armor the only call the
    handler makes is the decoding of the plaintext; when the plaintext
    decodes and the algorithm is supported, it returns the error response
    "unsupported encoding format ...; must be base64 or ascii-armor" (the
    two names in double quotes) with a nil error. *)
Theorem unsupported_format_rejected (raw : gmap string string) (st : gmap string KeyRecord) :
  field raw "format" ∉ supported_formats ->
  trace (call raw st).2 = [EvDecodeString (field raw "plaintext")] /\
  ((DecodeString (field raw "plaintext")).2 = None ->
   effective_algorithm raw ∈ supported_algorithms ->
   (call raw st).1
   = Returned
       (Some (ErrorResponse
          ("unsupported encoding format " +:+ field raw "format" +:+ "; must be " +:+ dquote
           +:+ "base64" +:+ dquote +:+ " or " +:+ dquote +:+ "ascii-armor" +:+ dquote)))
       None).
Proof.
  intros Hf%known_format_false. wp_call.
  all: split; [reflexivity | intros Hd Ha; cbn [snd] in Hd]; try congruence.
  all: by apply hash_of_None in Ha.
Qed.

(** X3.  When a request passes validation, its key ring has at least one
    entity, the storage read does not fail and the storage holds no record
    under the request's name, the handler returns the error response "key
    not found" together with [ErrInvalidRequest]; the storage read is its
    last call: no entity is derived and nothing is encrypted. *)
Theorem missing_key_rejected (raw : gmap string string) (st : gmap string KeyRecord) :
  passes_validation raw ->
  (ReadArmoredKeyRing (field raw "recipient_key")).1 <> [] ->
  storage_failure (field raw "name") = None ->
  st !! field raw "name" = None ->
  (call raw st).1 = Returned (Some (ErrorResponse "key not found")) (Some ErrInvalidRequest) /\
  trace (call raw st).2
  = [EvDecodeString (field raw "plaintext");
     EvReadArmoredKeyRing (field raw "recipient_key");
     EvStorageGet (field raw "name")].
Proof.
  intros Hv Hne Hs Hst.
  destruct (valid_with_recipient raw Hv Hne) as (b & h & e0 & el & Hd & Hh & Hf & Hrk & Hk).
  wp_call; done.
Qed.

(** X4.  When the read of the named key fails, the handler returns the
    storage's error as it is, with no response, and makes no further call. *)
Theorem storage_failure_returned (raw : gmap string string) (st : gmap string KeyRecord)
    (e : error) :
  passes_validation raw ->
  (ReadArmoredKeyRing (field raw "recipient_key")).1 <> [] ->
  storage_failure (field raw "name") = Some e ->
  (call raw st).1 = Returned None (Some e) /\
  trace (call raw st).2
  = [EvDecodeString (field raw "plaintext");
     EvReadArmoredKeyRing (field raw "recipient_key");
     EvStorageGet (field raw "name")].
Proof.
  intros Hv Hne Hs.
  destruct (valid_with_recipient raw Hv Hne) as (b & h & e0 & el & Hd & Hh & Hf & Hrk & Hk).
  wp_call; done.
Qed.

(** X5.  When the entity of the stored key cannot be derived, the handler
    returns that error as it is, with no response; the derivation is its
    last call: no encoder is created and nothing is encrypted. *)
Theorem entity_failure_returned (raw : gmap string string) (st : gmap string KeyRecord)
    (entry : KeyRecord) (e : error) :
  passes_validation raw ->
  (ReadArmoredKeyRing (field raw "recipient_key")).1 <> [] ->
  storage_failure (field raw "name") = None ->
  st !! field raw "name" = Some entry ->
  (entity entry).2 = Some e ->
  (call raw st).1 = Returned None (Some e) /\
  trace (call raw st).2
  = [EvDecodeString (field raw "plaintext");
     EvReadArmoredKeyRing (field raw "recipient_key");
     EvStorageGet (field raw "name");
     EvEntity entry].
Proof.
  intros Hv Hne Hs Hst He.
  destruct (valid_with_recipient raw Hv Hne) as (b & h & e0 & el & Hd & Hh & Hf & Hrk & Hk).
  known_answer He.
  wp_call; done.
Qed.

(** X6.  When the format is ascii-armor and [armor.Encode] fails, the handler
    returns that error as it is, with no response, and does not start the
    encryption. *)
Theorem armor_failure_returned (raw : gmap string string) (st : gmap string KeyRecord)
    (entry : KeyRecord) (e : error) :
  passes_validation raw ->
  (ReadArmoredKeyRing (field raw "recipient_key")).1 <> [] ->
  storage_failure (field raw "name") = None ->
  st !! field raw "name" = Some entry ->
  (entity entry).2 = None ->
  field raw "format" = "ascii-armor" ->
  (armor_Encode "PGP MESSAGE").2 = Some e ->
  (call raw st).1 = Returned None (Some e) /\
  trace (call raw st).2
  = [EvDecodeString (field raw "plaintext");
     EvReadArmoredKeyRing (field raw "recipient_key");
     EvStorageGet (field raw "name");
     EvEntity entry;
     EvArmorEncode "PGP MESSAGE"].
Proof.
  intros Hv Hne Hs Hst He Hfmt Ha.
  destruct (valid_with_recipient raw Hv Hne) as (b & h & e0 & el & Hd & Hh & Hf & Hrk & Hk).
  known_answer He. known_answer Ha. rewrite Hfmt in *.
  wp_call; done.
Qed.

(** X7.  When [Encrypt] fails, the handler returns its error with no
    response and calls nothing on the writers; when the [Write] of the
    plaintext fails, it returns that error with no response and closes
    neither the OpenPGP writer nor the encoder.  In both cases the buffer is
    not read. *)
Theorem encryption_failure_abandons_writers (raw : gmap string string)
    (st : gmap string KeyRecord) (e0 signer : Entity) (h : Hash) (enc : Encoder) (e : error) :
  reaches_encryption raw st e0 signer h enc ->
  ((Encrypt [e0] signer {| DefaultHash := h |}).2 = Some e ->
   (call raw st).1 = Returned None (Some e) /\
   List.filter is_output (trace (call raw st).2) = []) /\
  ((Encrypt [e0] signer {| DefaultHash := h |}).2 = None ->
   (w_Write [e0] signer {| DefaultHash := h |} [] (DecodeString (field raw "plaintext")).1).2
   = Some e ->
   (call raw st).1 = Returned None (Some e) /\
   List.filter is_output (trace (call raw st).2)
   = [EvWrite (DecodeString (field raw "plaintext")).1 (Some e)]).
Proof.
  intros (b & el & entry & Hd & Hh & Hf & Hrk & Hk & Hs & Hst & Hent & Henc)%reaches_encryption_elim.
  destruct Henc as [(Ha & -> & [text Hae]) | (Ha & Hb & ->)].
  all: split; [intros He | intros He Hw; rewrite Hd in Hw; cbn [fst] in Hw; known_answer Hw].
  all: known_answer He.
  all: wp_call; done.
Qed.


(** X9.  A request that reaches the encryption and whose [Encrypt], [Write],
    [Close] and encoder [Close] all succeed is answered with a nil error and
    the ciphertext that the encoder of the format makes of the OpenPGP
    message for the first recipient entity, signed by the stored key, with
    the decoded plaintext as its data. *)
Theorem successful_call (raw : gmap string string) (st : gmap string KeyRecord)
    (e0 signer : Entity) (h : Hash) (enc : Encoder) :
  reaches_encryption raw st e0 signer h enc ->
  (Encrypt [e0] signer {| DefaultHash := h |}).2 = None ->
  (w_Write [e0] signer {| DefaultHash := h |} [] (DecodeString (field raw "plaintext")).1).2
  = None ->
  (w_Close [e0] signer {| DefaultHash := h |} (DecodeString (field raw "plaintext")).1).2
  = None ->
  (encoder_Close enc
     (concat (message [e0] signer {| DefaultHash := h |}
                (DecodeString (field raw "plaintext")).1))).2 = None ->
  (call raw st).1
  = Returned
      (Some (CiphertextResponse
         (encoder_output enc
            (message [e0] signer {| DefaultHash := h |}
               (DecodeString (field raw "plaintext")).1))))
      None.
Proof.
  intros (b & el & entry & Hd & Hh & Hf & Hrk & Hk & Hs & Hst & Hent & Henc)%reaches_encryption_elim.
  unfold message. rewrite concat3, Hd. cbn [fst].
  intros He Hw Hc Hec.
  destruct Henc as [(Ha & -> & [text Hae]) | (Ha & Hb & ->)].
  all: rewrite <- encoded_message.
  all: destruct (Encrypt [e0] signer {| DefaultHash := h |}) as [o1 r1] eqn:H1;
    destruct (w_Write [e0] signer {| DefaultHash := h |} [] b) as [o2 r2] eqn:H2;
    destruct (w_Close [e0] signer {| DefaultHash := h |} b) as [o3 r3] eqn:H3;
    cbn [fst snd] in *; subst r1 r2 r3.
  all: wp_call; try congruence.
  all: cbn [encoder_header]; by rewrite ?Hae.
Qed.

(** X10.  A ciphertext that the handler returns is always the output of the
    encoder of the request's format over the OpenPGP message for the first
    recipient entity, signed by the stored key, with the decoded plaintext
    as its data; nothing else is ever in the response. *)
Theorem ciphertext_is_encoded_message (raw : gmap string string)
    (st : gmap string KeyRecord) (c : string) (err : option error) :
  (call raw st).1 = Returned (Some (CiphertextResponse c)) err ->
  exists e0 signer h enc,
    reaches_encryption raw st e0 signer h enc /\
    c = encoder_output enc
          (message [e0] signer {| DefaultHash := h |}
             (DecodeString (field raw "plaintext")).1).
Proof.
  revert c err. wp_call; intros c err' Hc; simplify_eq.
  all: eexists _, _, _, _; split;
    [ eapply reaches_encryption_intro; try eassumption;
      [ first [ by apply encoder_for_armor | by apply encoder_for_base64 ]
      | cbn [creation_error]; first [eassumption | reflexivity] ]
    | ].
  all: unfold message; rewrite <- encoded_message.
  all: repeat match goal with H : _ = (_, _) |- _ => rewrite H end.
  all: reflexivity.
Qed.

(** X11.  The handler reads the storage exactly when the request passes
    validation and its key ring has an entity: a request that is rejected,
    or whose key ring is empty, never reaches the storage, and every other
    request does. *)
Theorem storage_read_exactly_when_valid (raw : gmap string string)
    (st : gmap string KeyRecord) :
  EvStorageGet (field raw "name") ∈ trace (call raw st).2 <->
  passes_validation raw /\ (ReadArmoredKeyRing (field raw "recipient_key")).1 <> [].
Proof.
  wp_call.
  all: split; [intros Hin | intros [Hv Hne]].
  all: try (by in_trace).
  all: try (by repeat constructor).
  all: try (split; [eapply passes_validation_intro; eassumption | done]).
  all: exfalso; apply passes_validation_elim in Hv as (? & ? & ? & ? & ? & ? & ? & ?);
    congruence.
Qed.

(** X12.  The handler panics exactly when a request passes validation and
    the key ring parser hands back no entity though it reported no error:
    the panic is the index out of range of line 109.  Every field the
    handler reads is declared by the path and the encoder is never nil when
    it is used, so there is no other panic. *)
Theorem panics_exactly_on_empty_key_ring (raw : gmap string string)
    (st : gmap string KeyRecord) (reason : string) :
  (call raw st).1 = Panicked reason <->
  reason = "index out of range [0] with length 0" /\
  passes_validation raw /\
  (ReadArmoredKeyRing (field raw "recipient_key")).1 = [].
Proof.
  wp_call.
  all: split; [intros Hp; simplify_eq | intros (-> & Hv & Hnil)].
  all: try (split; [reflexivity|];
            split; [eapply passes_validation_intro; eassumption | done]).
  all: try done.
  all: try (by edestruct known_format_other).
  all: exfalso; apply passes_validation_elim in Hv as (? & ? & ? & ? & ? & ? & ? & ?);
    congruence.
Qed.

(** X13.  The shape of what the handler returns: never a nil response with a
    nil error; a ciphertext only with a nil error; an error response with
    an error only with [ErrInvalidRequest]; an error response with a nil
    error only for an unsupported algorithm or an unsupported format; and an
    error without a response only after the storage was read. *)
Theorem responses_and_errors (raw : gmap string string) (st : gmap string KeyRecord) :
  (call raw st).1 <> Returned None None /\
  (forall c err, (call raw st).1 = Returned (Some (CiphertextResponse c)) err -> err = None) /\
  (forall text e, (call raw st).1 = Returned (Some (ErrorResponse text)) (Some e) ->
     e = ErrInvalidRequest) /\
  (forall text, (call raw st).1 = Returned (Some (ErrorResponse text)) None ->
     ((effective_algorithm raw ∉ supported_algorithms) /\
      text = "unsupported algorithm " +:+ effective_algorithm raw) \/
     ((field raw "format" ∉ supported_formats) /\
      text = "unsupported encoding format " +:+ field raw "format" +:+ "; must be " +:+ dquote
             +:+ "base64" +:+ dquote +:+ " or " +:+ dquote +:+ "ascii-armor" +:+ dquote)) /\
  (forall e, (call raw st).1 = Returned None (Some e) ->
     EvStorageGet (field raw "name") ∈ trace (call raw st).2).
Proof.
  wp_call.
  all: split_and!; [done | intros c err' Hc | intros text e' Hc | intros text Hc | intros e' Hc].
  all: simplify_eq; try done.
  all: try (by repeat constructor).
  - right. split; [by apply known_format_false | done].
  - left. split; [by apply hash_of_None | done].
Qed.

(** X14.  The call depends on the storage through the record of the
    request's name only: with any other records added, changed or removed,
    the outcome, the calls made and the ciphertext are the same. *)
Theorem other_records_irrelevant (raw : gmap string string)
    (st st' : gmap string KeyRecord) :
  st !! field raw "name" = st' !! field raw "name" ->
  (call raw st).1 = (call raw st').1 /\
  trace (call raw st).2 = trace (call raw st').2 /\
  ciphertext (call raw st).2 = ciphertext (call raw st').2.
Proof.
  intros Hst.
  remember (call raw st') as rhs eqn:Hrhs.
  wp_call.
  all: subst rhs; wp_call; done.
Qed.

Lemma Get_declared (raw raw' : gmap string string) (k : string) :
  raw !! k = raw' !! k ->
  Get (fieldData raw) k = Get (fieldData raw') k.
Proof.
  intros Heq. unfold Get, FieldData_Get. cbn [Raw Schema fieldData]. by rewrite Heq.
Qed.

(** X15.  The handler reads the six fields that the path declares and no
    other: two requests that agree on them end in the same outcome and the
    same world. *)
Theorem undeclared_fields_ignored (raw raw' : gmap string string)
    (st : gmap string KeyRecord) :
  (forall k, k ∈ declared_fields -> raw !! k = raw' !! k) ->
  call raw st = call raw' st.
Proof.
  intros Heq.
  unfold call, pathEncryptWrite, pathEncryptWrite_recipient, pathEncryptWrite_encrypt,
    algorithm_of.
  rewrite !(Get_declared raw raw')
    by (apply Heq; unfold declared_fields; by repeat constructor).
  reflexivity.
Qed.

(** X16.  The format selects the encoder: the armor encoder is created only
    for the format ascii-armor, and with the block type PGP MESSAGE; the
    base64 stream encoder only for the format base64; and a request without
    a format has the format base64, the default that the path declares. *)
Theorem format_selects_encoder (raw : gmap string string) (st : gmap string KeyRecord) :
  (forall blockType, EvArmorEncode blockType ∈ trace (call raw st).2 ->
     blockType = "PGP MESSAGE" /\ field raw "format" = "ascii-armor") /\
  (EvNewEncoder ∈ trace (call raw st).2 -> field raw "format" = "base64") /\
  (raw !! "format" = None -> field raw "format" = "base64").
Proof.
  split_and!; [| |by unfold field, FieldData_Get; cbn; intros ->].
  - wp_call; intros bt Hin; in_trace.
    all: split; [done|]; by apply String.eqb_eq.
  - wp_call; intros Hin; in_trace.
    all: by apply String.eqb_eq.
Qed.

End Paths.

(** ** The reference environment meets what is asked of the libraries *)

Section Base64_facts.
Import Base64.
Local Open Scope N_scope.

Lemma list_ind3 {A : Type} (P : list A -> Prop) :
  P [] -> (forall a, P [a]) -> (forall a b, P [a; b]) ->
  (forall a b c l, P l -> P (a :: b :: c :: l)) ->
  forall l, P l.
Proof.
  intros H0 H1 H2 H3.
  assert (forall l, P l /\ (forall a, P (a :: l)) /\ (forall a b, P (a :: b :: l))) as H.
  { induction l as [|x l (IH0 & IH1 & IH2)]; [by auto|].
    split_and!; [apply IH1 | intros a; apply IH2 | intros a b; by apply H3]. }
  intros l. apply H.
Qed.

Lemma decodeMap_encode_char d : d < 64 -> decodeMap (encode_char d) = Some d.
Proof.
  intros Hd. destruct d as [|p]; [reflexivity|].
  do 7 (destruct p as [p|p|]; try reflexivity; try lia).
Qed.

Lemma byte_of_to_N b : byte_of (Byte.to_N b) = b.
Proof. unfold byte_of. by rewrite Byte.of_to_N. Qed.

Lemma to_N_lt b : Byte.to_N b < 256.
Proof. pose proof (Byte.to_N_bounded b). lia. Qed.

Lemma digits_lt val :
  digit0 val < 64 /\ digit1 val < 64 /\ digit2 val < 64 /\ digit3 val < 64.
Proof. unfold digit0, digit1, digit2, digit3. split_and!; by apply N.mod_lt. Qed.

Lemma assemble4 a b c :
  let val := group a b c in
  assemble [digit0 val; digit1 val; digit2 val; digit3 val] = [a; b; c].
Proof.
  intros val. subst val. unfold assemble, group, digit0, digit1, digit2, digit3.
  pose proof (to_N_lt a). pose proof (to_N_lt b). pose proof (to_N_lt c).
  set (x := Byte.to_N a) in *. set (y := Byte.to_N b) in *. set (z := Byte.to_N c) in *.
  assert ((x * 65536 + y * 256 + z) / 262144 mod 64 * 262144 +
          (x * 65536 + y * 256 + z) / 4096 mod 64 * 4096 +
          (x * 65536 + y * 256 + z) / 64 mod 64 * 64 +
          (x * 65536 + y * 256 + z) mod 64 = x * 65536 + y * 256 + z) as ->.
    by (zify; Z.to_euclidean_division_equations; lia).
  assert ((x * 65536 + y * 256 + z) / 65536 = x) as -> by (zify; Z.to_euclidean_division_equations; lia).
  assert ((x * 65536 + y * 256 + z) / 256 mod 256 = y) as -> by (zify; Z.to_euclidean_division_equations; lia).
  assert ((x * 65536 + y * 256 + z) mod 256 = z) as -> by (zify; Z.to_euclidean_division_equations; lia).
  subst x y z. by rewrite !byte_of_to_N.
Qed.

Lemma assemble3 a b :
  let val := group a b x00 in
  assemble [digit0 val; digit1 val; digit2 val] = [a; b].
Proof.
  intros val. subst val. unfold assemble, group, digit0, digit1, digit2.
  pose proof (to_N_lt a). pose proof (to_N_lt b).
  change (Byte.to_N x00) with 0.
  set (x := Byte.to_N a) in *. set (y := Byte.to_N b) in *.
  assert ((x * 65536 + y * 256 + 0) / 262144 mod 64 * 262144 +
          (x * 65536 + y * 256 + 0) / 4096 mod 64 * 4096 +
          (x * 65536 + y * 256 + 0) / 64 mod 64 * 64 = x * 65536 + y * 256) as ->
    by (zify; Z.to_euclidean_division_equations; lia).
  assert ((x * 65536 + y * 256) / 65536 = x) as -> by (zify; Z.to_euclidean_division_equations; lia).
  assert ((x * 65536 + y * 256) / 256 mod 256 = y) as -> by (zify; Z.to_euclidean_division_equations; lia).
  subst x y. by rewrite !byte_of_to_N.
Qed.

Lemma assemble2 a :
  let val := group a x00 x00 in
  assemble [digit0 val; digit1 val] = [a].
Proof.
  intros val. subst val. unfold assemble, group, digit0, digit1.
  pose proof (to_N_lt a).
  change (Byte.to_N x00) with 0.
  set (x := Byte.to_N a) in *.
  assert (((x * 65536 + 0 * 256 + 0) / 262144 mod 64 * 262144 +
          (x * 65536 + 0 * 256 + 0) / 4096 mod 64 * 4096) / 65536 = x) as ->
    by (zify; Z.to_euclidean_division_equations; lia).
  subst x. by rewrite !byte_of_to_N.
Qed.

Lemma decode_digit d rest si len dbuf dst :
  d < 64 ->
  decode (encode_char d :: rest) si len dbuf dst =
    match dbuf with
    | [_; _; _] => decode rest (si + 1) len [] (dst ++ assemble (dbuf ++ [d]))
    | _ => decode rest (si + 1) len (dbuf ++ [d]) dst
    end.
Proof. intros Hd. cbn [decode]. by rewrite decodeMap_encode_char. Qed.

Lemma decode_encode l si len dst :
  decode (encode l) si len [] dst = (dst ++ l, None).
Proof.
  revert si dst. induction l as [|a|a b|a b c l IH] using list_ind3; intros si dst.
  - cbn. by rewrite app_nil_r.
  - cbn [encode].
    destruct (digits_lt (group a x00 x00)) as (?&?&?&?).
    rewrite !decode_digit by done. cbn [app].
    cbn -[assemble group digit0 digit1]. by rewrite assemble2.
  - cbn [encode].
    destruct (digits_lt (group a b x00)) as (?&?&?&?).
    rewrite !decode_digit by done. cbn [app].
    cbn -[assemble group digit0 digit1 digit2]. by rewrite assemble3.
  - cbn [encode].
    destruct (digits_lt (group a b c)) as (?&?&?&?).
    rewrite !decode_digit by done. cbn [app].
    rewrite assemble4, IH. by rewrite <- app_assoc.
Qed.

Lemma DecodeString_EncodeToString l : DecodeString (EncodeToString l) = (l, None).
Proof.
  unfold DecodeString, EncodeToString.
  by rewrite list_ascii_of_string_of_list_ascii, decode_encode.
Qed.

Lemma full_groups_app prior p :
  full_groups (prior ++ p) = full_groups prior ++ full_groups (leftover prior ++ p).
Proof. induction prior as [|a|a b|a b c l IH] using list_ind3; cbn; [done..|]. by rewrite IH. Qed.

Lemma leftover_app prior p : leftover (prior ++ p) = leftover (leftover prior ++ p).
Proof. induction prior as [|a|a b|a b c l IH] using list_ind3; by cbn. Qed.

Lemma encode_split l : encode l = full_groups l ++ encode (leftover l).
Proof. induction l as [|a|a b|a b c l IH] using list_ind3; cbn; [done..|]. by rewrite IH. Qed.

Lemma string_of_list_ascii_app (l1 l2 : list ascii) :
  string_of_list_ascii (l1 ++ l2) = string_of_list_ascii l1 +:+ string_of_list_ascii l2.
Proof. induction l1 as [|c l1 IH]; cbn; [done|]. by rewrite IH. Qed.

End Base64_facts.

Section Reference_facts.
Import Base64.

Lemma encode_char_not_newline d : (d < 64)%N -> Ascii.eqb (encode_char d) (ascii_of_nat 10) = false.
Proof.
  intros Hd. destruct d as [|p]; [reflexivity|].
  do 7 (destruct p as [p|p|]; try reflexivity; try lia).
Qed.

Lemma encode_one_line l : Armor.one_line (string_of_list_ascii (encode l)).
Proof.
  unfold Armor.one_line. rewrite list_ascii_of_string_of_list_ascii.
  induction l as [|a|a b|a b c l IH] using list_ind3; cbn [encode].
  - constructor.
  - destruct (digits_lt (group a x00 x00)) as (?&?&?&?).
    repeat constructor; by apply encode_char_not_newline.
  - destruct (digits_lt (group a b x00)) as (?&?&?&?).
    repeat constructor; by apply encode_char_not_newline.
  - destruct (digits_lt (group a b c)) as (?&?&?&?).
    repeat (constructor; [by apply encode_char_not_newline|]). exact IH.
Qed.

Lemma EncodeToString_one_line b : Armor.one_line (EncodeToString b).
Proof. apply encode_one_line. Qed.

Lemma break_line_one_line s rest :
  Armor.one_line s ->
  Armor.break_line (s +:+ Armor.newline +:+ rest) = Some (s, rest).
Proof.
  unfold Armor.one_line. induction s as [|c s IH]; [reflexivity|].
  intros H. apply Forall_cons in H as [Hc H].
  change (String c s +:+ Armor.newline +:+ rest)
    with (String c (s +:+ Armor.newline +:+ rest)).
  cbn [Armor.break_line]. by rewrite Hc, IH.
Qed.

Lemma Decode_message (b : bytes) :
  Armor.Decode (Armor.header "PGP MESSAGE" +:+ EncodeToString b +:+ Armor.footer "PGP MESSAGE" b)
  = Some ("PGP MESSAGE", b).
Proof.
  unfold Armor.Decode.
  change (Armor.strip_prefix "-----BEGIN " _)
    with (Some ("PGP MESSAGE-----" +:+ Armor.newline +:+ Armor.newline +:+
                EncodeToString b +:+ Armor.newline +:+ "=" +:+
                Armor.checksum b +:+ Armor.newline +:+ "-----END PGP MESSAGE-----")).
  cbn [mbind option_bind].
  rewrite break_line_one_line by (repeat constructor).
  cbn [mbind option_bind].
  change (Armor.strip_suffix "-----" _) with (Some "PGP MESSAGE").
  cbn [mbind option_bind].
  change (Armor.strip_prefix Armor.newline (Armor.newline +:+ ?x)) with (Some x).
  cbn [mbind option_bind].
  rewrite break_line_one_line by apply EncodeToString_one_line.
  cbn [mbind option_bind].
  change (Armor.strip_prefix "=" ("=" +:+ ?x)) with (Some x).
  cbn [mbind option_bind].
  rewrite break_line_one_line by apply EncodeToString_one_line.
  cbn [mbind option_bind].
  change (String.eqb "-----END PGP MESSAGE-----" _) with true. cbv iota.
  rewrite DecodeString_EncodeToString.
  by rewrite String.eqb_refl.
Qed.

Lemma open_for_recipients k found to rest :
  Sealed.open_for k found (Sealed.recipients to ++ rest)
  = Sealed.open_for k (found || bool_decide (k ∈ map Sealed.id_byte to)) rest.
Proof.
  revert found. induction to as [|e to IH]; intros found.
  - cbn. by rewrite orb_false_r.
  - change (Sealed.recipients (e :: to) ++ rest)
      with (x01 :: Sealed.id_byte e :: (Sealed.recipients to ++ rest)).
    cbn [Sealed.open_for]. rewrite IH. f_equal.
    rewrite <- orb_assoc. f_equal. cbn [map].
    rewrite <- bool_decide_or. apply bool_decide_ext.
    rewrite elem_of_cons. intuition congruence.
Qed.

Lemma reference_stream_base64 prior chunks :
  string_of_list_ascii (full_groups prior)
    +:+ encoder_stream (H:=Reference.env) Base64Encoder prior chunks
  = EncodeToString (prior ++ concat chunks).
Proof.
  revert prior. induction chunks as [|c chunks IH]; intros prior; cbn [encoder_stream concat].
  - rewrite app_nil_r. cbn. unfold stream_Close, EncodeToString.
    by rewrite <- string_of_list_ascii_app, <- encode_split.
  - rewrite app_assoc, <- IH. cbn. unfold stream_Write.
    by rewrite <- append_assoc, <- string_of_list_ascii_app, <- full_groups_app.
Qed.

Lemma reference_stream_armor blockType prior chunks :
  string_of_list_ascii (full_groups prior)
    +:+ encoder_stream (H:=Reference.env) (ArmorEncoder blockType) prior chunks
  = EncodeToString (prior ++ concat chunks)
    +:+ Armor.footer blockType (prior ++ concat chunks).
Proof.
  revert prior. induction chunks as [|c chunks IH]; intros prior; cbn [encoder_stream concat].
  - rewrite app_nil_r. cbn. unfold stream_Close, EncodeToString.
    by rewrite <- append_assoc, <- string_of_list_ascii_app, <- encode_split.
  - rewrite app_assoc, <- IH. cbn. unfold stream_Write.
    by rewrite <- append_assoc, <- string_of_list_ascii_app, <- full_groups_app.
Qed.

Lemma reference_base64_round_trip : base64_round_trip (H:=Reference.env).
Proof.
  intros chunks _. unfold encoder_output. cbn [encoder_header].
  pose proof (reference_stream_base64 [] chunks) as H. cbn [full_groups app] in H.
  change ("" +:+ ?x) with x. change (string_of_list_ascii [] +:+ ?x) with x in H.
  rewrite H. cbn. unfold Reference.decode_string.
  by rewrite DecodeString_EncodeToString.
Qed.

Lemma reference_armor_round_trip : armor_round_trip (H:=Reference.env).
Proof.
  intros chunks _ _. unfold encoder_output. cbn [encoder_header].
  pose proof (reference_stream_armor "PGP MESSAGE" [] chunks) as H. cbn [full_groups app] in H.
  change (string_of_list_ascii [] +:+ ?x) with x in H.
  rewrite H. cbn [armor_Decode armor_Encode Reference.env fst].
  apply Decode_message.
Qed.

Lemma reference_message_round_trip : message_round_trip (H:=Reference.env).
Proof.
  intros to signed config p R HR _ _ _.
  cbn. rewrite app_nil_r. unfold Sealed.prologue.
  rewrite <- app_assoc, open_for_recipients. cbn.
  rewrite bool_decide_eq_true_2; [done|].
  apply list_elem_of_fmap. by exists R.
Qed.

Lemma reference_armor_frames : armor_frames (H:=Reference.env).
Proof.
  intros blockType. split.
  - intros _. eexists. cbn. unfold Armor.header. reflexivity.
  - intros input _. cbn. unfold Armor.footer.
    exists (stream_Close input +:+ Armor.newline +:+ "=" +:+ Armor.checksum input
            +:+ Armor.newline).
    by rewrite !append_assoc.
Qed.

End Reference_facts.

(** ** The theorems at work, and where the claims as written fail *)

#[local] Existing Instance Reference.env.

Ltac by_compute := vm_compute; first [reflexivity | discriminate | repeat constructor].



(** C4, as written, fails: with a plaintext that is not base64 the handler
    answers with the decoding error before it looks at the algorithm. *)
Lemma unsupported_algorithm_after_decoding :
  (effective_algorithm
     (<["plaintext" := "!"]>
        (<["algorithm" := "md5"]> (Reference.request Reference.keys)))
   ∉ supported_algorithms) /\
  (call (<["plaintext" := "!"]>
           (<["algorithm" := "md5"]> (Reference.request Reference.keys)))
        Reference.store).1
  = Returned
      (Some (ErrorResponse
         "unable to decode plaintext as base64: illegal base64 data at input byte 0"))
      (Some ErrInvalidRequest) /\
  (call (<["plaintext" := "!"]>
           (<["algorithm" := "md5"]> (Reference.request Reference.keys)))
        Reference.store).1
  <> Returned (Some (ErrorResponse "unsupported algorithm md5")) None.
Proof.
  split_and!; [|by_compute..].
  apply hash_of_None. by_compute.
Qed.

Lemma unsupported_algorithm_rejected_witness :
  storage (call (<["algorithm" := "md5"]> (Reference.request Reference.keys)) Reference.store).2
  = Reference.store /\
  trace (call (<["algorithm" := "md5"]> (Reference.request Reference.keys)) Reference.store).2
  = [EvDecodeString
       (field (<["algorithm" := "md5"]> (Reference.request Reference.keys)) "plaintext")] /\
  (call (<["algorithm" := "md5"]> (Reference.request Reference.keys)) Reference.store).1
  = Returned
      (Some (ErrorResponse
         ("unsupported algorithm "
          +:+ effective_algorithm (<["algorithm" := "md5"]> (Reference.request Reference.keys)))))
      None.
Proof.
  destruct (unsupported_algorithm_rejected
              (<["algorithm" := "md5"]> (Reference.request Reference.keys)) Reference.store)
    as (Hs & Ht & Ho).
  - apply hash_of_None. by_compute.
  - split_and!; [exact Hs | exact Ht | apply Ho; by_compute].
Defined.

(** C7, as written, fails: with an unsupported algorithm the handler answers
    with the algorithm error before it looks at the recipient key. *)
Lemma missing_recipient_after_algorithm :
  field (<["algorithm" := "md5"]> (Reference.request "")) "recipient_key" = "" /\
  (call (<["algorithm" := "md5"]> (Reference.request "")) Reference.store).1
  = Returned (Some (ErrorResponse "unsupported algorithm md5")) None /\
  (call (<["algorithm" := "md5"]> (Reference.request "")) Reference.store).1
  <> Returned (Some (ErrorResponse "recipient_key not exist")) (Some ErrInvalidRequest).
Proof. split_and!; by_compute. Qed.

Lemma missing_recipient_rejected_witness :
  trace (call (Reference.request "") Reference.store).2
  = [EvDecodeString (field (Reference.request "") "plaintext")] /\
  (call (Reference.request "") Reference.store).1
  = Returned (Some (ErrorResponse "recipient_key not exist")) (Some ErrInvalidRequest).
Proof.
  destruct (missing_recipient_rejected (Reference.request "") Reference.store) as [Ht Ho].
  - by_compute.
  - split; [exact Ht | apply Ho; by_compute].
Defined.

Lemma algorithm_selection_witness :
  effective_algorithm (<["urlalgorithm" := "sha2-512"]> (<["algorithm" := "sha2-224"]> ∅))
  = "sha2-512" /\
  effective_algorithm (<["urlalgorithm" := ""]> (<["algorithm" := "sha2-224"]> ∅))
  = "sha2-224" /\
  (effective_algorithm ∅ = "sha2-256" /\ hash_of (effective_algorithm ∅) = Some SHA256) /\
  hash_of (effective_algorithm
             (<["urlalgorithm" := "sha2-384"]>
                (Reference.request Reference.keys)))
  = Some (DefaultHash {| DefaultHash := SHA384 |}).
Proof.
  split; [|split; [|split]].
  - apply (proj1 (proj2 (algorithm_selection _ ∅ (initial ∅)))); by_compute.
  - apply (proj1 (proj2 (proj2 (algorithm_selection _ ∅ (initial ∅))))); [right|]; by_compute.
  - apply (proj1 (proj2 (proj2 (proj2 (algorithm_selection ∅ ∅ (initial ∅)))))); [left|];
      by_compute.
  - apply (proj2 (proj2 (proj2 (proj2
             (algorithm_selection
                (<["urlalgorithm" := "sha2-384"]>
                   (Reference.request Reference.keys))
                Reference.store (initial ∅)))))
             [ {| KeyId := 1 |} ] {| KeyId := 10 |}).
    by_compute.
Defined.

Lemma writers_closed_before_read_witness :
  (@None error = None /\
   "AQEACApoZWxsbw=="
   = ciphertext (call (Reference.request Reference.keys) Reference.store).2 /\
   exists pre,
     trace (call (Reference.request Reference.keys) Reference.store).2
     = pre ++ [EvClose None; EvEncoderClose None; EvBufferString] /\
     forall ev, ev ∈ pre ->
       ev <> EvBufferString /\ (forall e, ev <> EvClose e /\ ev <> EvEncoderClose e)) /\
  ((@call (Reference.env_failing_close (Err "signing failed"))
      (Reference.request Reference.keys) Reference.store).1
   = Returned None (Some (Err "signing failed")) /\
   EvBufferString
   ∉ trace (@call (Reference.env_failing_close (Err "signing failed"))
              (Reference.request Reference.keys) Reference.store).2).
Proof.
  split.
  - apply (proj1 (writers_closed_before_read _ _) "AQEACApoZWxsbw==" None). by_compute.
  - apply (proj2 (writers_closed_before_read _ _)). left. by_compute.
Defined.

Lemma first_entity_is_sole_recipient_witness :
  [ {| KeyId := 1 |} ] = [ {| KeyId := 1 |} ] /\
  (exists s cfg enc,
     EvEncrypt [ {| KeyId := 1 |} ] s cfg
     ∈ trace (call (Reference.request Reference.keys) Reference.store).2 /\
     "AQEACApoZWxsbw=="
     = encoder_output enc
         (message [ {| KeyId := 1 |} ] s cfg
            (DecodeString (field (Reference.request Reference.keys) "plaintext")).1)) /\
  call (Reference.request Reference.keys) Reference.store
  = @call (first_only Reference.env)
      (Reference.request Reference.keys) Reference.store.
Proof.
  split; [|split].
  - apply (proj1 (first_entity_is_sole_recipient
                    (Reference.request Reference.keys) Reference.store)
             {| KeyId := 1 |} [ {| KeyId := 2 |} ] [ {| KeyId := 1 |} ]
             {| KeyId := 10 |} {| DefaultHash := SHA256 |}); by_compute.
  - apply (proj1 (proj2 (first_entity_is_sole_recipient
                           (Reference.request Reference.keys) Reference.store))
             {| KeyId := 1 |} [ {| KeyId := 2 |} ] "AQEACApoZWxsbw==" None); by_compute.
  - apply (proj2 (proj2 (first_entity_is_sole_recipient _ _))).
Defined.

Lemma armored_output_framed_witness :
  (exists rest,
     Armor.header "PGP MESSAGE" +:+ "AQEACApoZWxsbw=="
       +:+ Armor.footer "PGP MESSAGE" (Sealed.prologue [ {| KeyId := 1 |} ] {| KeyId := 10 |}
                                         {| DefaultHash := SHA256 |}
                                       ++ list_byte_of_string "hello")
     = "-----BEGIN PGP MESSAGE-----" +:+ rest) /\
  (exists text,
     Armor.header "PGP MESSAGE" +:+ "AQEACApoZWxsbw=="
       +:+ Armor.footer "PGP MESSAGE" (Sealed.prologue [ {| KeyId := 1 |} ] {| KeyId := 10 |}
                                         {| DefaultHash := SHA256 |}
                                       ++ list_byte_of_string "hello")
     = text +:+ "-----END PGP MESSAGE-----").
Proof.
  apply (armored_output_framed
           (<["format" := "ascii-armor"]> (Reference.request Reference.keys))
           Reference.store).
  - apply reference_armor_frames.
  - by_compute.
  - by_compute.
Defined.

Lemma encrypt_round_trip_witness :
  decrypt_with {| KeyId := 1 |}
    (field (Reference.request Reference.keys) "format")
    "AQEACApoZWxsbw=="
  = Some (DecodeString
            (field (Reference.request Reference.keys) "plaintext")).1 /\
  decrypt_with {| KeyId := 1 |}
    (field (<["format" := "ascii-armor"]>
              (Reference.request Reference.keys)) "format")
    (Armor.header "PGP MESSAGE" +:+ "AQEACApoZWxsbw=="
       +:+ Armor.footer "PGP MESSAGE" (Sealed.prologue [ {| KeyId := 1 |} ] {| KeyId := 10 |}
                                         {| DefaultHash := SHA256 |}
                                       ++ list_byte_of_string "hello"))
  = Some (DecodeString
            (field (<["format" := "ascii-armor"]>
                      (Reference.request Reference.keys)) "plaintext")).1.
Proof.
  split.
  - apply (encrypt_round_trip
             (Reference.request Reference.keys) Reference.store
             "AQEACApoZWxsbw==" {| KeyId := 1 |} [ {| KeyId := 2 |} ]).
    + apply reference_base64_round_trip.
    + apply reference_armor_round_trip.
    + apply reference_message_round_trip.
    + by_compute.
    + by_compute.
  - apply (encrypt_round_trip
             (<["format" := "ascii-armor"]>
                (Reference.request Reference.keys)) Reference.store
             _ {| KeyId := 1 |} [ {| KeyId := 2 |} ]).
    + apply reference_base64_round_trip.
    + apply reference_armor_round_trip.
    + apply reference_message_round_trip.
    + by_compute.
    + by_compute.
Defined.

(** ** The further properties at work *)

Lemma undecodable_plaintext_rejected_witness :
  (call (<["plaintext" := "!"]> (Reference.request Reference.keys)) Reference.store).1
  = Returned
      (Some (ErrorResponse ("unable to decode plaintext as base64: "
                            +:+ Error (Err "illegal base64 data at input byte 0"))))
      (Some ErrInvalidRequest) /\
  trace (call (<["plaintext" := "!"]> (Reference.request Reference.keys)) Reference.store).2
  = [EvDecodeString
       (field (<["plaintext" := "!"]> (Reference.request Reference.keys)) "plaintext")].
Proof.
  apply (undecodable_plaintext_rejected
           (<["plaintext" := "!"]> (Reference.request Reference.keys)) Reference.store
           (Err "illegal base64 data at input byte 0")).
  by_compute.
Defined.

Lemma unsupported_format_rejected_witness :
  trace (call (<["format" := "hex"]> (Reference.request Reference.keys)) Reference.store).2
  = [EvDecodeString
       (field (<["format" := "hex"]> (Reference.request Reference.keys)) "plaintext")] /\
  (call (<["format" := "hex"]> (Reference.request Reference.keys)) Reference.store).1
  = Returned
      (Some (ErrorResponse
         ("unsupported encoding format "
          +:+ field (<["format" := "hex"]> (Reference.request Reference.keys)) "format"
          +:+ "; must be " +:+ dquote +:+ "base64" +:+ dquote +:+ " or " +:+ dquote
          +:+ "ascii-armor" +:+ dquote)))
      None.
Proof.
  destruct (unsupported_format_rejected
              (<["format" := "hex"]> (Reference.request Reference.keys)) Reference.store)
    as [Ht Ho].
  - apply known_format_false. by_compute.
  - split; [exact Ht | apply Ho; by_compute].
Defined.

Lemma missing_key_rejected_witness :
  (call (Reference.request Reference.keys) ∅).1
  = Returned (Some (ErrorResponse "key not found")) (Some ErrInvalidRequest) /\
  trace (call (Reference.request Reference.keys) ∅).2
  = [EvDecodeString (field (Reference.request Reference.keys) "plaintext");
     EvReadArmoredKeyRing (field (Reference.request Reference.keys) "recipient_key");
     EvStorageGet (field (Reference.request Reference.keys) "name")].
Proof.
  apply (missing_key_rejected (Reference.request Reference.keys) ∅).
  - apply (passes_validation_intro (Reference.request Reference.keys)
             (list_byte_of_string "hello") SHA256 [ {| KeyId := 1 |}; {| KeyId := 2 |} ]);
      by_compute.
  - by_compute.
  - by_compute.
  - by_compute.
Defined.

Lemma storage_failure_returned_witness :
  (@call (Reference.env_failing Reference.InStorage (Err "storage is sealed"))
     (Reference.request Reference.keys) Reference.store).1
  = Returned None (Some (Err "storage is sealed")) /\
  trace (@call (Reference.env_failing Reference.InStorage (Err "storage is sealed"))
           (Reference.request Reference.keys) Reference.store).2
  = [EvDecodeString (field (Reference.request Reference.keys) "plaintext");
     EvReadArmoredKeyRing (field (Reference.request Reference.keys) "recipient_key");
     EvStorageGet (field (Reference.request Reference.keys) "name")].
Proof.
  apply (@storage_failure_returned
           (Reference.env_failing Reference.InStorage (Err "storage is sealed"))
           (Reference.request Reference.keys) Reference.store).
  - apply (@passes_validation_intro
             (Reference.env_failing Reference.InStorage (Err "storage is sealed"))
             (Reference.request Reference.keys)
             (list_byte_of_string "hello") SHA256 [ {| KeyId := 1 |}; {| KeyId := 2 |} ]);
      by_compute.
  - by_compute.
  - by_compute.
Defined.

Lemma entity_failure_returned_witness :
  (@call (Reference.env_failing Reference.InEntity (Err "openpgp: invalid data"))
     (Reference.request Reference.keys) Reference.store).1
  = Returned None (Some (Err "openpgp: invalid data")) /\
  trace (@call (Reference.env_failing Reference.InEntity (Err "openpgp: invalid data"))
           (Reference.request Reference.keys) Reference.store).2
  = [EvDecodeString (field (Reference.request Reference.keys) "plaintext");
     EvReadArmoredKeyRing (field (Reference.request Reference.keys) "recipient_key");
     EvStorageGet (field (Reference.request Reference.keys) "name");
     EvEntity Reference.alice].
Proof.
  apply (@entity_failure_returned
           (Reference.env_failing Reference.InEntity (Err "openpgp: invalid data"))
           (Reference.request Reference.keys) Reference.store).
  - apply (@passes_validation_intro
             (Reference.env_failing Reference.InEntity (Err "openpgp: invalid data"))
             (Reference.request Reference.keys)
             (list_byte_of_string "hello") SHA256 [ {| KeyId := 1 |}; {| KeyId := 2 |} ]);
      by_compute.
  - by_compute.
  - by_compute.
  - by_compute.
  - by_compute.
Defined.

Lemma armor_failure_returned_witness :
  (@call (Reference.env_failing Reference.InArmor (Err "short write"))
     (<["format" := "ascii-armor"]> (Reference.request Reference.keys)) Reference.store).1
  = Returned None (Some (Err "short write")) /\
  trace (@call (Reference.env_failing Reference.InArmor (Err "short write"))
           (<["format" := "ascii-armor"]> (Reference.request Reference.keys))
           Reference.store).2
  = [EvDecodeString
       (field (<["format" := "ascii-armor"]> (Reference.request Reference.keys)) "plaintext");
     EvReadArmoredKeyRing
       (field (<["format" := "ascii-armor"]> (Reference.request Reference.keys))
          "recipient_key");
     EvStorageGet
       (field (<["format" := "ascii-armor"]> (Reference.request Reference.keys)) "name");
     EvEntity Reference.alice;
     EvArmorEncode "PGP MESSAGE"].
Proof.
  apply (@armor_failure_returned
           (Reference.env_failing Reference.InArmor (Err "short write"))
           (<["format" := "ascii-armor"]> (Reference.request Reference.keys))
           Reference.store).
  - apply (@passes_validation_intro
             (Reference.env_failing Reference.InArmor (Err "short write"))
             (<["format" := "ascii-armor"]> (Reference.request Reference.keys))
             (list_byte_of_string "hello") SHA256 [ {| KeyId := 1 |}; {| KeyId := 2 |} ]);
      by_compute.
  - by_compute.
  - by_compute.
  - by_compute.
  - by_compute.
  - by_compute.
  - by_compute.
Defined.

Lemma encryption_failure_abandons_writers_witness :
  ((@call (Reference.env_failing Reference.InEncrypt (Err "openpgp: no signing key"))
      (Reference.request Reference.keys) Reference.store).1
   = Returned None (Some (Err "openpgp: no signing key")) /\
   List.filter is_output
     (trace (@call (Reference.env_failing Reference.InEncrypt (Err "openpgp: no signing key"))
               (Reference.request Reference.keys) Reference.store).2)
   = []) /\
  ((@call (Reference.env_failing Reference.InWrite (Err "short write"))
      (Reference.request Reference.keys) Reference.store).1
   = Returned None (Some (Err "short write")) /\
   List.filter is_output
     (trace (@call (Reference.env_failing Reference.InWrite (Err "short write"))
               (Reference.request Reference.keys) Reference.store).2)
   = [EvWrite
        (@DecodeString (Reference.env_failing Reference.InWrite (Err "short write"))
           (field (Reference.request Reference.keys) "plaintext")).1
        (Some (Err "short write"))]).
Proof.
  split.
  - apply (proj1 (@encryption_failure_abandons_writers
                    (Reference.env_failing Reference.InEncrypt (Err "openpgp: no signing key"))
                    (Reference.request Reference.keys) Reference.store
                    {| KeyId := 1 |} {| KeyId := 10 |} SHA256 Base64Encoder
                    (Err "openpgp: no signing key")
                    (@reaches_encryption_intro
                       (Reference.env_failing Reference.InEncrypt
                          (Err "openpgp: no signing key"))
                       (Reference.request Reference.keys) Reference.store
                       (list_byte_of_string "hello") SHA256 {| KeyId := 1 |}
                       [ {| KeyId := 2 |} ] Reference.alice {| KeyId := 10 |} Base64Encoder
                       eq_refl eq_refl eq_refl eq_refl eq_refl eq_refl eq_refl eq_refl
                       eq_refl eq_refl))).
    by_compute.
  - apply (proj2 (@encryption_failure_abandons_writers
                    (Reference.env_failing Reference.InWrite (Err "short write"))
                    (Reference.request Reference.keys) Reference.store
                    {| KeyId := 1 |} {| KeyId := 10 |} SHA256 Base64Encoder
                    (Err "short write")
                    (@reaches_encryption_intro
                       (Reference.env_failing Reference.InWrite (Err "short write"))
                       (Reference.request Reference.keys) Reference.store
                       (list_byte_of_string "hello") SHA256 {| KeyId := 1 |}
                       [ {| KeyId := 2 |} ] Reference.alice {| KeyId := 10 |} Base64Encoder
                       eq_refl eq_refl eq_refl eq_refl eq_refl eq_refl eq_refl eq_refl
                       eq_refl eq_refl))).
    + by_compute.
    + by_compute.
Defined.


Lemma successful_call_witness :
  (call (<["format" := "ascii-armor"]> (Reference.request Reference.keys)) Reference.store).1
  = Returned
      (Some (CiphertextResponse
         (encoder_output (ArmorEncoder "PGP MESSAGE")
            (message [ {| KeyId := 1 |} ] {| KeyId := 10 |} {| DefaultHash := SHA256 |}
               (DecodeString
                  (field (<["format" := "ascii-armor"]> (Reference.request Reference.keys))
                     "plaintext")).1))))
      None.
Proof.
  apply (successful_call
           (<["format" := "ascii-armor"]> (Reference.request Reference.keys)) Reference.store
           {| KeyId := 1 |} {| KeyId := 10 |} SHA256 (ArmorEncoder "PGP MESSAGE")).
  - apply (reaches_encryption_intro
             (<["format" := "ascii-armor"]> (Reference.request Reference.keys))
             Reference.store
             (list_byte_of_string "hello") SHA256 {| KeyId := 1 |}
             [ {| KeyId := 2 |} ] Reference.alice {| KeyId := 10 |}
             (ArmorEncoder "PGP MESSAGE")); by_compute.
  - by_compute.
  - by_compute.
  - by_compute.
  - by_compute.
Defined.

Lemma ciphertext_is_encoded_message_witness :
  exists e0 signer h enc,
    reaches_encryption (Reference.request Reference.keys) Reference.store e0 signer h enc /\
    "AQEACApoZWxsbw=="
    = encoder_output enc
        (message [e0] signer {| DefaultHash := h |}
           (DecodeString (field (Reference.request Reference.keys) "plaintext")).1).
Proof.
  apply (ciphertext_is_encoded_message (Reference.request Reference.keys) Reference.store
           "AQEACApoZWxsbw==" None).
  by_compute.
Defined.

Lemma storage_read_exactly_when_valid_witness :
  EvStorageGet (field (Reference.request Reference.keys) "name")
  ∈ trace (call (Reference.request Reference.keys) Reference.store).2.
Proof.
  apply (proj2 (storage_read_exactly_when_valid
                  (Reference.request Reference.keys) Reference.store)).
  split.
  - apply (passes_validation_intro (Reference.request Reference.keys)
             (list_byte_of_string "hello") SHA256 [ {| KeyId := 1 |}; {| KeyId := 2 |} ]);
      by_compute.
  - by_compute.
Defined.

Lemma panics_exactly_on_empty_key_ring_witness :
  (call (Reference.request (Reference.armored_keys [])) Reference.store).1
  = Panicked "index out of range [0] with length 0".
Proof.
  apply (proj2 (panics_exactly_on_empty_key_ring
                  (Reference.request (Reference.armored_keys [])) Reference.store
                  "index out of range [0] with length 0")).
  split; [reflexivity|]. split.
  - apply (passes_validation_intro (Reference.request (Reference.armored_keys []))
             (list_byte_of_string "hello") SHA256 []); by_compute.
  - by_compute.
Defined.

Lemma responses_and_errors_witness :
  (((effective_algorithm (<["algorithm" := "md5"]> (Reference.request Reference.keys))
     ∉ supported_algorithms) /\
    "unsupported algorithm md5"
    = "unsupported algorithm "
      +:+ effective_algorithm (<["algorithm" := "md5"]> (Reference.request Reference.keys))) \/
   ((field (<["algorithm" := "md5"]> (Reference.request Reference.keys)) "format"
     ∉ supported_formats) /\
    "unsupported algorithm md5"
    = "unsupported encoding format "
      +:+ field (<["algorithm" := "md5"]> (Reference.request Reference.keys)) "format"
      +:+ "; must be " +:+ dquote +:+ "base64" +:+ dquote +:+ " or " +:+ dquote
      +:+ "ascii-armor" +:+ dquote)) /\
  EvStorageGet (field (Reference.request Reference.keys) "name")
  ∈ trace (@call (Reference.env_failing Reference.InStorage (Err "storage is sealed"))
             (Reference.request Reference.keys) Reference.store).2.
Proof.
  split.
  - apply (proj1 (proj2 (proj2 (proj2
             (responses_and_errors
                (<["algorithm" := "md5"]> (Reference.request Reference.keys))
                Reference.store))))).
    by_compute.
  - apply (proj2 (proj2 (proj2 (proj2
             (@responses_and_errors
                (Reference.env_failing Reference.InStorage (Err "storage is sealed"))
                (Reference.request Reference.keys) Reference.store))))
             (Err "storage is sealed")).
    by_compute.
Defined.

Lemma other_records_irrelevant_witness :
  (call (Reference.request Reference.keys) Reference.store).1
  = (call (Reference.request Reference.keys)
       (<["bob" := Reference.alice]> (delete "carol" Reference.store))).1 /\
  trace (call (Reference.request Reference.keys) Reference.store).2
  = trace (call (Reference.request Reference.keys)
             (<["bob" := Reference.alice]> (delete "carol" Reference.store))).2 /\
  ciphertext (call (Reference.request Reference.keys) Reference.store).2
  = ciphertext (call (Reference.request Reference.keys)
                  (<["bob" := Reference.alice]> (delete "carol" Reference.store))).2.
Proof.
  apply (other_records_irrelevant (Reference.request Reference.keys)).
  by_compute.
Defined.

Lemma undeclared_fields_ignored_witness :
  call (Reference.request Reference.keys) Reference.store
  = call (<["comment" := "for bob"]> (Reference.request Reference.keys)) Reference.store.
Proof.
  apply (undeclared_fields_ignored (Reference.request Reference.keys)
           (<["comment" := "for bob"]> (Reference.request Reference.keys))).
  intros k Hk. unfold declared_fields in Hk. in_trace; by_compute.
Defined.

Lemma format_selects_encoder_witness :
  ("PGP MESSAGE" = "PGP MESSAGE" /\
   field (<["format" := "ascii-armor"]> (Reference.request Reference.keys)) "format"
   = "ascii-armor") /\
  field (Reference.request Reference.keys) "format" = "base64" /\
  field (Reference.request Reference.keys) "format" = "base64".
Proof.
  split; [|split].
  - apply (proj1 (format_selects_encoder
                    (<["format" := "ascii-armor"]> (Reference.request Reference.keys))
                    Reference.store) "PGP MESSAGE").
    by_compute.
  - apply (proj1 (proj2 (format_selects_encoder
                           (Reference.request Reference.keys) Reference.store))).
    by_compute.
  - apply (proj2 (proj2 (format_selects_encoder
                           (Reference.request Reference.keys) Reference.store))).
    by_compute.
Defined.
